(** * Library-usage analyzer: a model of [github_library_analyzer.py]

    The development embeds the static-analysis core of the repository
    (the classes [_LibraryUsageExtractor], [_AliasCollector] and
    [_UsageCollector], and the per-file part of
    [GitHubLibraryAnalyzer.analyze_library]) and proves properties of it.

    Python objects are modelled as follows.
    - [str] is [string]; [int] is [Z].
    - An [ast.AST] object is an [AST]; every node carries the identity of
      the Python object ([obj_id]), because the parent index of the source
      is a [dict] keyed by node identity.
    - [Dict[ast.AST, ast.AST]] is a [gmap nat AST] keyed by [obj_id].
    - [Set[str]] is a [gset string] (only membership is ever asked).
    - [Dict[Tuple[int, int], _BlockCapture]] is an association list in
      insertion order, since [list(d.values())] returns that order.
    - The [while] loops over the stack and up the parent index run on
      fuel; they are shown to end within the fuel they are given on every
      tree.  The loops down an attribute chain are structural. *)

From Stdlib Require Import ZArith String Ascii List Lia Bool.
From stdpp Require Import base option list gmap strings fin_maps.

Import ListNotations.
Local Open Scope string_scope.
Local Open Scope Z_scope.

(** ** Python strings *)

Module PyStr.

(** [s.startswith(p)]. *)
Fixpoint startswith (p s : string) : bool :=
  match p, s with
  | EmptyString, _ => true
  | String a p', String b s' => if Ascii.eqb a b then startswith p' s' else false
  | String _ _, EmptyString => false
  end.

(** [s.split(sep)] for a one-character separator: the list of the maximal
    pieces between occurrences of [sep]; never empty. *)
Fixpoint split (sep : ascii) (s : string) : list string :=
  match s with
  | EmptyString => [EmptyString]
  | String c s' =>
      if Ascii.eqb c sep then EmptyString :: split sep s'
      else match split sep s' with
           | [] => [String c EmptyString]
           | piece :: rest => String c piece :: rest
           end
  end.

(** [l[0]] and [l[-1]] of a list of strings produced by [split]; the
    default is never used because [split] returns a non-empty list. *)
Definition first (l : list string) : string := List.hd EmptyString l.
Definition final (l : list string) : string := List.last l EmptyString.

(** [sep.join(l)]. *)
Fixpoint join (sep : string) (l : list string) : string :=
  match l with
  | [] => EmptyString
  | [x] => x
  | x :: rest => x ++ sep ++ join sep rest
  end.

(** Truthiness of an [Optional[str]]: [None] and the empty string are
    falsy. *)
Definition truthy (o : option string) : bool :=
  match o with
  | Some (String _ _) => true
  | _ => false
  end.

(** [a or b] on an optional string and a string. *)
Definition or_else (o : option string) (d : string) : string :=
  match o with
  | Some (String c s) => String c s
  | _ => d
  end.

(** [l[a:b]] with Python's treatment of negative and out-of-range
    bounds. *)
Definition slice_index (len i : Z) : Z :=
  if i <? 0 then Z.max 0 (i + len) else Z.min i len.

Definition slice {A : Type} (l : list A) (a b : Z) : list A :=
  let len := Z.of_nat (List.length l) in
  let a' := slice_index len a in
  let b' := slice_index len b in
  firstn (Z.to_nat (b' - a')) (skipn (Z.to_nat a') l).

(** The text of [s] up to, and without, its first ["."]: what the spec
    calls the first dotted segment. *)
Inductive first_segment : string -> string -> Prop :=
| seg_all : first_segment EmptyString EmptyString
| seg_dot s : first_segment (String "."%char s) EmptyString
| seg_char c s r :
    c <> "."%char -> first_segment s r -> first_segment (String c s) (String c r).

End PyStr.

Definition dot : ascii := "."%char.

(** ** The syntax tree *)

Inductive expr_context : Type := Load | Store | Del.

(** What every [ast.AST] object has: its identity, and the position
    attributes the parser attaches to statements and expressions.  The
    source reads the positions with [getattr(_, _, None)], hence the
    options. *)
Record meta : Type := Meta {
  obj_id : nat;
  lineno : option Z;
  col_offset : option Z;
  end_lineno : option Z
}.

(** [ast.alias]: one imported name of an import statement. *)
Record alias : Type := Alias {
  alias_meta : meta;
  alias_name : string;
  alias_asname : option string
}.

(** The classes the collectors know only through [isinstance] tests and
    [generic_visit]; the string is the Python class name. *)
Inductive node_class : Type :=
| Mod
| FunctionDef
| AsyncFunctionDef
| ClassDef
| OtherStmt (cls : string)
| OtherExpr (cls : string)
| OtherNode (cls : string).

(** A node.  [fields] of a [Generic] node lists its child nodes in the
    order of the class's [_fields], which is the order [ast.iter_child_nodes]
    and [generic_visit] follow.  Context and operator objects ([Load],
    [Store], [Add], ...), which the parser shares between nodes and which have
    neither children nor position, are not listed as child nodes; the context
    of a name or attribute is kept as a field. *)
#[warnings="-register-all"]
Inductive AST : Type :=
| Name (m : meta) (id : string) (ctx : expr_context)
| Attribute (m : meta) (value : AST) (attr : string) (ctx : expr_context)
| Import (m : meta) (names : list alias)
| ImportFrom (m : meta) (module : option string) (names : list alias) (level : Z)
| Generic (m : meta) (cls : node_class) (fields : list AST).

Definition node_meta (n : AST) : meta :=
  match n with
  | Name m _ _ | Attribute m _ _ _ | Import m _ | ImportFrom m _ _ _
  | Generic m _ _ => m
  end.

Definition node_id (n : AST) : nat := obj_id (node_meta n).

Definition alias_node (a : alias) : AST :=
  Generic (alias_meta a) (OtherNode "alias") [].

(** [ast.iter_child_nodes(node)]. *)
Definition iter_child_nodes (n : AST) : list AST :=
  match n with
  | Name _ _ _ => []
  | Attribute _ value _ _ => [value]
  | Import _ names => map alias_node names
  | ImportFrom _ _ names _ => map alias_node names
  | Generic _ _ fields => fields
  end.

(** [isinstance(n, (ast.FunctionDef, ast.AsyncFunctionDef, ast.ClassDef))]. *)
Definition is_def (n : AST) : bool :=
  match n with
  | Generic _ FunctionDef _ | Generic _ AsyncFunctionDef _
  | Generic _ ClassDef _ => true
  | _ => false
  end.

(** [isinstance(n, ast.stmt)]: definitions and import statements are
    statements too. *)
Definition is_stmt (n : AST) : bool :=
  match n with
  | Import _ _ | ImportFrom _ _ _ _ => true
  | Generic _ FunctionDef _ | Generic _ AsyncFunctionDef _
  | Generic _ ClassDef _ | Generic _ (OtherStmt _) _ => true
  | _ => false
  end.


(** ** Outcomes of a computation

    A computation of the source returns, raises, or (in the model only) runs
    out of the fuel given to one of its loops. *)

(** [SyntaxError] stands for the class with its subclasses, which an
    [except SyntaxError] clause catches alike. *)
Inductive exn : Type :=
| SyntaxError
| OtherError (cls : string).

Inductive outcome (A : Type) : Type :=
| Ret (a : A)
| Raise (e : exn)
| OutOfFuel.

Arguments Ret {A} a.
Arguments Raise {A} e.
Arguments OutOfFuel {A}.

#[global] Instance outcome_ret : MRet outcome := fun _ a => Ret a.
#[global] Instance outcome_bind : MBind outcome := fun _ _ f c =>
  match c with
  | Ret a => f a
  | Raise e => Raise e
  | OutOfFuel => OutOfFuel
  end.

#[global] Instance outcome_fmap : FMap outcome := fun _ _ f c =>
  match c with
  | Ret a => Ret (f a)
  | Raise e => Raise e
  | OutOfFuel => OutOfFuel
  end.

(** ** Tree Builder: [_LibraryUsageExtractor._populate_parent_links] *)

(** [stack.pop()]: the last element of the list. *)
Definition pop {A : Type} (stack : list A) : option (A * list A) :=
  match rev stack with
  | [] => None
  | x :: r => Some (x, rev r)
  end.

(** The body of [for child in ast.iter_child_nodes(node)]. *)
Definition link_children (node : AST) (children : list AST)
    (parent : gmap nat AST) (stack : list AST)
    : gmap nat AST * list AST :=
  fold_left
    (fun '(parent, stack) child => (<[node_id child := node]> parent, (stack ++ [child])%list))
    children (parent, stack).

(** [while stack: ...], one unit of fuel per iteration. *)
Fixpoint populate_loop (fuel : nat) (stack : list AST) (parent : gmap nat AST)
    : outcome (gmap nat AST) :=
  match pop stack with
  | None => Ret parent
  | Some (node, stack) =>
      match fuel with
      | O => OutOfFuel
      | S fuel =>
          let '(parent, stack) :=
            link_children node (iter_child_nodes node) parent stack in
          populate_loop fuel stack parent
      end
  end.

(** The number of nodes of a tree: the loop pops each node once. *)
Fixpoint node_count (n : AST) : nat :=
  match n with
  | Name _ _ _ => 1
  | Attribute _ value _ _ => S (node_count value)
  | Import _ names => S (List.length names)
  | ImportFrom _ _ names _ => S (List.length names)
  | Generic _ _ fields =>
      S ((fix sum (l : list AST) : nat :=
            match l with
            | [] => O
            | c :: l' => (node_count c + sum l')%nat
            end) fields)
  end.

Definition _populate_parent_links (tree : AST) : outcome (gmap nat AST) :=
  populate_loop (node_count tree) [tree] ∅.

(** ** Alias Resolver: [_AliasCollector] *)

Module AliasCollector.
Section Collector.
(** [self.base]. *)
Variable base : string.

(** [self.base_root = library.split(".")[0]]. *)
Definition base_root : string := PyStr.first (PyStr.split dot base).

Definition _matches_library (module_name : string) : bool :=
  String.eqb module_name base
  || PyStr.startswith (base ++ ".") module_name
  || String.eqb (PyStr.first (PyStr.split dot module_name)) base_root.

(** One turn of [for alias in node.names] of [visit_Import]. *)
Definition import_alias (aliases : gset string) (a : alias) : gset string :=
  if _matches_library (alias_name a) then
    match alias_asname a with
    | Some (String c s) => {[ String c s ]} ∪ aliases
    | _ => {[ PyStr.first (PyStr.split dot (alias_name a)) ]} ∪ aliases
    end
  else aliases.

(** One turn of [for alias in node.names] of [visit_ImportFrom], inside
    the test on [module]. *)
Definition import_from_alias (module : string) (aliases : gset string) (a : alias)
    : gset string :=
  if String.eqb (alias_name a) "*"
  then {[ base_root ]} ∪ ({[ PyStr.final (PyStr.split dot module) ]} ∪ aliases)
  else {[ PyStr.or_else (alias_asname a) (alias_name a) ]} ∪ aliases.

Definition visit_Import (names : list alias) (aliases : gset string) : gset string :=
  fold_left import_alias names aliases.

Definition visit_ImportFrom (module : option string) (names : list alias)
    (aliases : gset string) : gset string :=
  match module with
  | Some module =>
      if PyStr.truthy (Some module) && _matches_library module
      then fold_left (import_from_alias module) names aliases
      else aliases
  | None => aliases
  end.

(** [NodeVisitor.visit]: the class-specific method where there is one,
    [generic_visit] otherwise.  Both import methods end in
    [generic_visit], which there walks [alias] nodes only: these have no
    method of their own and no children, so the walk leaves the set as it
    is. *)
Fixpoint visit (n : AST) (aliases : gset string) : gset string :=
  match n with
  | Import _ names => visit_Import names aliases
  | ImportFrom _ module names _ => visit_ImportFrom module names aliases
  | Name _ _ _ => aliases
  | Attribute _ value _ _ => visit value aliases
  | Generic _ _ fields =>
      (fix generic_visit (l : list AST) (aliases : gset string) : gset string :=
         match l with
         | [] => aliases
         | c :: l' => generic_visit l' (visit c aliases)
         end) fields aliases
  end.

(** [alias_collector.visit(tree); alias_collector.aliases]. *)
Definition collect (tree : AST) : gset string := visit tree ∅.
End Collector.
End AliasCollector.

(** ** Usage Locator: [_UsageCollector] *)

Record _BlockCapture : Type := BlockCapture {
  start_line : Z;
  end_line : Z;
  symbol : string;
  snippet : string
}.

(** [self.blocks_map]: keys in insertion order. *)
Definition blocks_map : Type := list ((Z * Z) * _BlockCapture).

(** [key in self.blocks_map]. *)
Definition has_key (key : Z * Z) (m : blocks_map) : bool :=
  existsb (fun e => Z.eqb (fst (fst e)) (fst key) && Z.eqb (snd (fst e)) (snd key)) m.

(** The [blocks] property: [list(self.blocks_map.values())]. *)
Definition blocks (m : blocks_map) : list _BlockCapture := map snd m.

Definition span (b : _BlockCapture) : Z * Z := (start_line b, end_line b).

Module UsageCollector.
Section Collector.
(** [textwrap.dedent] and [str.strip], library functions the snippet is
    passed through. *)
Variable dedent : string -> string.
Variable strip : string -> string.

(** [self.lines], [self.aliases], [self.parent]. *)
Variable lines : list string.
Variable aliases : gset string.
Variable parent : gmap nat AST.

(** The [while current is not None] loop of [_enclosing_block]. *)
Fixpoint enclosing_loop (fuel : nat) (current : option AST) (closest_stmt : option AST)
    : outcome (option AST) :=
  match current with
  | None => Ret closest_stmt
  | Some cur =>
      match fuel with
      | O => OutOfFuel
      | S fuel =>
          if is_def cur then Ret (Some cur)
          else
            let closest_stmt := if is_stmt cur then Some cur else closest_stmt in
            enclosing_loop fuel (parent !! node_id cur) closest_stmt
      end
  end.

(** Every iteration but the first reads an entry of [parent], and on a
    tree no entry is read twice. *)
Definition _enclosing_block (node : AST) : outcome (option AST) :=
  enclosing_loop (S (size parent)) (Some node) None.

Definition make_snippet (start end_ : Z) : string :=
  strip (dedent (PyStr.join (String "010"%char EmptyString)
                   (PyStr.slice lines (start - 1) end_))).

Definition _record (node : AST) (symbol : string) (m : blocks_map) : outcome blocks_map :=
  container ← _enclosing_block node;
  match container with
  | None => Ret m
  | Some container =>
      match lineno (node_meta container) with
      | None => Ret m
      | Some start =>
          let end_ := default start (end_lineno (node_meta container)) in
          let key := (start, end_) in
          if has_key key m then Ret m
          else Ret (m ++ [(key, BlockCapture start end_ symbol (make_snippet start end_))])%list
      end
  end.

(** [parent.value is node] compares object identities. *)
Definition _part_of_attribute (node : AST) : bool :=
  match parent !! node_id node with
  | Some (Attribute _ value _ _) => Nat.eqb (node_id value) (node_id node)
  | _ => false
  end.

Fixpoint _attribute_root (current : AST) : AST :=
  match current with
  | Attribute _ value _ _ => _attribute_root value
  | _ => current
  end.

(** The loop and the final test of [_attribute_full_name], on the list
    [parts]. *)
Fixpoint attribute_parts (current : AST) (parts : list string) : list string :=
  match current with
  | Attribute _ value attr _ => attribute_parts value (parts ++ [attr])%list
  | Name _ id _ => (parts ++ [id])%list
  | _ => parts
  end.

Definition _attribute_full_name (node : AST) : string :=
  PyStr.join "." (rev (attribute_parts node [])).

(** The part of [visit_Name] before [generic_visit]. *)
Definition visit_Name (node : AST) (id : string) (m : blocks_map) : outcome blocks_map :=
  if bool_decide (id ∈ aliases) && negb (_part_of_attribute node)
  then _record node id m
  else Ret m.

(** The part of [visit_Attribute] before [generic_visit]. *)
Definition visit_Attribute (node : AST) (m : blocks_map) : outcome blocks_map :=
  match _attribute_root node with
  | Name _ id _ =>
      if bool_decide (id ∈ aliases)
      then _record node (_attribute_full_name node) m
      else Ret m
  | _ => Ret m
  end.

(** [NodeVisitor.visit].  A name has no child node; the children of an
    import statement are [alias] nodes, which no method handles and which
    have no children. *)
Fixpoint visit (node : AST) (m : blocks_map) : outcome blocks_map :=
  match node with
  | Name _ id _ => visit_Name node id m
  | Attribute _ value _ _ => m ← visit_Attribute node m; visit value m
  | Import _ _ | ImportFrom _ _ _ _ => Ret m
  | Generic _ _ fields =>
      (fix generic_visit (l : list AST) (m : blocks_map) : outcome blocks_map :=
         match l with
         | [] => Ret m
         | c :: l' => m ← visit c m; generic_visit l' m
         end) fields m
  end.

(** [usage_collector.visit(tree); usage_collector.blocks]. *)
Definition collect (tree : AST) : outcome (list _BlockCapture) :=
  m ← visit tree []; Ret (blocks m).
End Collector.
End UsageCollector.

(** ** Analysis Facade: [_LibraryUsageExtractor] and the loop body of
    [analyze_library] *)

Record _LibraryUsageExtractor : Type := Extractor {
  library : string;
  source : string;
  lines : list string;
  tree : AST
}.

Record CodeBlock : Type := MkCodeBlock {
  cb_repository : string;
  cb_file_path : string;
  cb_html_url : string;
  cb_start_line : Z;
  cb_end_line : Z;
  cb_symbol : string;
  cb_snippet : string
}.

(** A search hit, with the fields [analyze_library] reads. *)
Record item : Type := Item {
  item_url : string;
  item_repository : string;
  item_path : string;
  item_html_url : string
}.

Section Facade.
(** The library functions of the facade: [ast.parse], [str.splitlines],
    [textwrap.dedent], [str.strip]; and [_download_source], which is
    network traffic. *)
Variable ast_parse : string -> outcome AST.
Variable splitlines : string -> list string.
Variable dedent : string -> string.
Variable strip : string -> string.
Variable _download_source : string -> outcome string.

(** [_LibraryUsageExtractor.__init__]. *)
Definition init (library source : string) : outcome _LibraryUsageExtractor :=
  let lines := splitlines source in
  tree ← ast_parse source;
  Ret (Extractor library source lines tree).

Definition extract_blocks (self : _LibraryUsageExtractor) : outcome (list _BlockCapture) :=
  parent ← _populate_parent_links (tree self);
  let alias_names := AliasCollector.collect (library self) (tree self) in
  if bool_decide (alias_names = ∅) then Ret []
  else UsageCollector.collect dedent strip (lines self) alias_names parent (tree self).

(** [try: extractor = ... except SyntaxError: continue] followed by
    [extract_blocks]: the blocks one source text contributes. *)
Definition analyze_source (library source : string) : outcome (list _BlockCapture) :=
  match init library source with
  | Raise SyntaxError => Ret []
  | Raise e => Raise e
  | OutOfFuel => OutOfFuel
  | Ret extractor => extract_blocks extractor
  end.

Definition to_code_block (it : item) (block : _BlockCapture) : CodeBlock :=
  MkCodeBlock (item_repository it) (item_path it) (item_html_url it)
    (start_line block) (end_line block) (symbol block) (snippet block).

(** [for item in items] of [analyze_library], on the search hits. *)
Fixpoint analyze_items (library : string) (items : list item) (results : list CodeBlock)
    : outcome (list CodeBlock) :=
  match items with
  | [] => Ret results
  | it :: items' =>
      match _download_source (item_url it) with
      | Ret source =>
          blocks ← analyze_source library source;
          analyze_items library items' (results ++ map (to_code_block it) blocks)%list
      | OutOfFuel => OutOfFuel
      | Raise _ => analyze_items library items' results
      end
  end.
End Facade.

(** ** The tree as a whole: nodes, positions, parent links *)

(** The nodes of a tree, each once, parents before children. *)
Fixpoint subnodes (n : AST) : list AST :=
  n :: match n with
       | Name _ _ _ => []
       | Attribute _ value _ _ => subnodes value
       | Import _ names | ImportFrom _ _ names _ => map alias_node names
       | Generic _ _ fields => flat_map subnodes fields
       end.

(** Distinct Python objects have distinct identities. *)
Definition distinct_ids (tree : AST) : Prop := NoDup (map node_id (subnodes tree)).

(** The nodes of a tree with their ancestor chains, nearest ancestor first:
    [(anc, n)] is listed when [n] occurs in the tree below the chain [anc]. *)
Fixpoint positions (anc : list AST) (n : AST) : list (list AST * AST) :=
  (anc, n) :: match n with
              | Name _ _ _ => []
              | Attribute _ value _ _ => positions (n :: anc) value
              | Import _ names | ImportFrom _ _ names _ =>
                  map (fun a => (n :: anc, alias_node a)) names
              | Generic _ _ fields => flat_map (positions (n :: anc)) fields
              end.

(** The parent links of a tree as a list of entries. *)
Fixpoint links (n : AST) : list (nat * AST) :=
  map (fun c => (node_id c, n)) (iter_child_nodes n)
  ++ match n with
     | Attribute _ value _ _ => links value
     | Generic _ _ fields => flat_map links fields
     | _ => []
     end.

(** The parent chain of a node in a parent index. *)
Fixpoint chain (parent : gmap nat AST) (n : AST) (anc : list AST) : Prop :=
  match anc with
  | [] => parent !! node_id n = None
  | p :: anc' => parent !! node_id n = Some p /\ chain parent p anc'
  end.

(** What the upward walk of [_enclosing_block] returns on a chain that
    starts at the reference and ends at the root. *)
Fixpoint walk (chain : list AST) (closest_stmt : option AST) : option AST :=
  match chain with
  | [] => closest_stmt
  | cur :: rest =>
      if is_def cur then Some cur
      else walk rest (if is_stmt cur then Some cur else closest_stmt)
  end.

(** ** Notions the specification speaks of *)

(** The enclosing block as the specification words it: the first definition
    on the chain, or else the statement nearest to the reference. *)
Definition nearest_block (chain : list AST) : option AST :=
  match List.find is_def chain with
  | Some d => Some d
  | None => List.find is_stmt chain
  end.

(** The statement farthest from the reference. *)
Definition outermost_stmt (chain : list AST) : option AST :=
  List.find is_stmt (rev chain).

(** The dotted path of a reference: the base identifier, then every
    attribute segment, outermost last. *)
Fixpoint dotted_path (n : AST) : option (list string) :=
  match n with
  | Name _ id _ => Some [id]
  | Attribute _ value attr _ =>
      match dotted_path value with
      | Some p => Some (p ++ [attr])%list
      | None => None
      end
  | _ => None
  end.

(** A candidate reference: the node, its ancestor chain and its resolved
    symbol. *)
Record candidate : Type := Candidate {
  ref_node : AST;
  ref_ancestors : list AST;
  ref_symbol : string
}.

Section Candidates.
Variable aliases : gset string.

(** A bare identifier is a candidate when it is an alias and not the base
    object of an attribute access (an attribute node has its base object
    as only child); an attribute access is one when its innermost base is
    an alias. *)
Definition own_candidate (anc : list AST) (n : AST) : list candidate :=
  match n with
  | Name _ id _ =>
      match anc with
      | Attribute _ _ _ _ :: _ => []
      | _ => if bool_decide (id ∈ aliases) then [Candidate n anc id] else []
      end
  | Attribute _ _ _ _ =>
      match dotted_path n with
      | Some (base :: segments) =>
          if bool_decide (base ∈ aliases)
          then [Candidate n anc (PyStr.join "." (base :: segments))]
          else []
      | _ => []
      end
  | _ => []
  end.

(** The candidates of a tree in the order the visitor meets them. *)
Fixpoint candidates (anc : list AST) (n : AST) : list candidate :=
  own_candidate anc n
  ++ match n with
     | Attribute _ value _ _ => candidates (n :: anc) value
     | Generic _ _ fields => flat_map (candidates (n :: anc)) fields
     | _ => []
     end.
End Candidates.

(** The dictionary key of a container: its line range, with the start line
    standing in for a missing end line. *)
Definition block_key (container : AST) : option (Z * Z) :=
  match lineno (node_meta container) with
  | Some start => Some (start, default start (end_lineno (node_meta container)))
  | None => None
  end.

(** The key under which a candidate is recorded, if it has a container with
    a start line. *)
Definition ref_key (c : candidate) : option (Z * Z) :=
  match walk (ref_node c :: ref_ancestors c) None with
  | Some container => block_key container
  | None => None
  end.

(** The dictionary entry made for a candidate under a key. *)
Definition block_entry (dedent strip : string -> string) (lines : list string)
    (k : Z * Z) (c : candidate) : (Z * Z) * _BlockCapture :=
  (k, BlockCapture (fst k) (snd k) (ref_symbol c)
        (UsageCollector.make_snippet dedent strip lines (fst k) (snd k))).

(** What recording a candidate does to the dictionary: nothing when the
    candidate has no key or the key is taken, a new last entry otherwise. *)
Definition record_candidate (dedent strip : string -> string) (lines : list string)
    (m : blocks_map) (c : candidate) : blocks_map :=
  match ref_key c with
  | None => m
  | Some (start, end_) =>
      if has_key (start, end_) m then m
      else (m ++ [((start, end_),
                   BlockCapture start end_ (ref_symbol c)
                     (UsageCollector.make_snippet dedent strip lines start end_))])%list
  end.

(** The nodes on a stack. *)
Definition count_all (l : list AST) : nat := list_sum (map node_count l).

(** [c] occurs before an occurrence of [r] in [l]. *)
Definition precedes {A : Type} (c r : A) (l : list A) : Prop :=
  exists l1 l2 l3, l = (l1 ++ c :: l2 ++ r :: l3)%list.

(** Source position of a node, and the order of the source text on
    positions. *)
Definition doc_pos (n : AST) : option (Z * Z) :=
  match lineno (node_meta n), col_offset (node_meta n) with
  | Some l, Some c => Some (l, c)
  | _, _ => None
  end.

Definition doc_le (p q : option (Z * Z)) : Prop :=
  match p, q with
  | Some (l1, c1), Some (l2, c2) => l1 < l2 \/ (l1 = l2 /\ c1 <= c2)
  | _, _ => False
  end.

(** Two inclusive line ranges share a line. *)
Definition spans_overlap (s1 s2 : Z * Z) : Prop :=
  fst s1 <= snd s2 /\ fst s2 <= snd s1.

(** The alias an import statement binds, by the rules for the two import
    forms. *)
Definition binds (library : string) (n : AST) (x : string) : Prop :=
  match n with
  | Import _ names =>
      exists a, a ∈ names
        /\ AliasCollector._matches_library library (alias_name a) = true
        /\ x = match alias_asname a with
               | Some (String c s) => String c s
               | _ => PyStr.first (PyStr.split dot (alias_name a))
               end
  | ImportFrom _ (Some (String c0 m0)) names _ =>
      let module := String c0 m0 in
      AliasCollector._matches_library library module = true
      /\ exists a, a ∈ names
           /\ if String.eqb (alias_name a) "*"
              then x = PyStr.final (PyStr.split dot module)
                   \/ x = AliasCollector.base_root library
              else x = PyStr.or_else (alias_asname a) (alias_name a)
  | _ => False
  end.

(** What the alias visitor does at a node before it visits the children. *)
Definition alias_step (library : string) (n : AST) (acc : gset string) : gset string :=
  match n with
  | Import _ names => AliasCollector.visit_Import library names acc
  | ImportFrom _ module names _ => AliasCollector.visit_ImportFrom library module names acc
  | _ => acc
  end.

(** An import statement whose module path matches the library. *)
Definition imports_library (library : string) (n : AST) : bool :=
  match n with
  | Import _ names =>
      existsb (fun a => AliasCollector._matches_library library (alias_name a)) names
  | ImportFrom _ (Some module) _ _ => AliasCollector._matches_library library module
  | _ => false
  end.

(** Some import statement of the tree, at any depth, matches the library. *)
Definition mentions_library (library : string) (tree : AST) : bool :=
  existsb (imports_library library) (subnodes tree).

(** The candidates of one analysis: those of the tree under the aliases the
    Alias Resolver computes for the library. *)
Definition analysis_candidates (library : string) (tree : AST) : list candidate :=
  candidates (AliasCollector.collect library tree) [] tree.

(** [c] comes first in the source text among the candidates recorded under
    its key. *)
Definition first_in_document_order (cs : list candidate) (c : candidate) : Prop :=
  In c cs
  /\ forall c', In c' cs -> ref_key c' = ref_key c ->
       doc_le (doc_pos (ref_node c)) (doc_pos (ref_node c')).

(** The statements at the top level of a module. *)
Definition top_level (tree : AST) : list AST :=
  match tree with
  | Generic _ Mod body => body
  | _ => []
  end.

(** The properties below are worded as the specification words them; each
    is compared with the source further down. *)

(** The symbol of every block is that of the candidate which comes first in
    the source text among those recorded under the block's span. *)
Definition document_order_wins (cs : list candidate) (bs : list _BlockCapture) : Prop :=
  forall b c,
    In b bs -> first_in_document_order cs c -> ref_key c = Some (span b) ->
    symbol b = ref_symbol c.

(** No two blocks share a line. *)
Definition non_overlapping (bs : list _BlockCapture) : Prop :=
  forall (i j : nat) (b1 b2 : _BlockCapture),
    bs !! i = Some b1 -> bs !! j = Some b2 -> i <> j ->
    ~ spans_overlap (span b1) (span b2).

(** Every alias is bound by an import statement at the top level of the
    module. *)
Definition only_top_level_imports (library : string) (tree : AST) : Prop :=
  forall x, x ∈ AliasCollector.collect library tree ->
    exists s, In s (top_level tree) /\ binds library s x.

(** Every statement with an alias as assignment target has a block of its
    own span carrying the bare name, unless a candidate occupies that
    span. *)
Definition store_target_reported (library : string) (tree : AST)
    (bs : list _BlockCapture) : Prop :=
  forall (stmt : AST) (m : meta) (id : string) (k : Z * Z),
    In stmt (subnodes tree) -> is_stmt stmt = true ->
    In (Name m id Store) (iter_child_nodes stmt) ->
    id ∈ AliasCollector.collect library tree ->
    block_key stmt = Some k ->
    (forall c, In c (analysis_candidates library tree) -> ref_key c <> Some k) ->
    exists b, In b bs /\ span b = k /\ symbol b = id.

(** A tree with the identities forgotten. *)
Definition erase_meta (m : meta) : meta :=
  Meta O (lineno m) (col_offset m) (end_lineno m).

Definition erase_alias (a : alias) : alias :=
  Alias (erase_meta (alias_meta a)) (alias_name a) (alias_asname a).

Fixpoint erase (n : AST) : AST :=
  match n with
  | Name m id ctx => Name (erase_meta m) id ctx
  | Attribute m value attr ctx => Attribute (erase_meta m) (erase value) attr ctx
  | Import m names => Import (erase_meta m) (map erase_alias names)
  | ImportFrom m module names level =>
      ImportFrom (erase_meta m) module (map erase_alias names) level
  | Generic m cls fields => Generic (erase_meta m) cls (map erase fields)
  end.

(** Two runs of the parser on one text: the same tree, built from different
    objects (or the same failure). *)
Definition same_parse (r1 r2 : outcome AST) : Prop :=
  match r1, r2 with
  | Ret t1, Ret t2 => erase t1 = erase t2 /\ distinct_ids t1 /\ distinct_ids t2
  | Raise e1, Raise e2 => e1 = e2
  | OutOfFuel, OutOfFuel => True
  | _, _ => False
  end.

(** ** The parent index with the shared objects

    [ast.iter_child_nodes] yields the context object of a name or of an
    attribute access as a child too, and the parser shares one object per
    context class among all nodes.  [_populate_parent_links] puts these
    objects into the index like every other child.  For the index in full
    the children of a node are therefore taken with the context object, and
    the fields of a generic node may list shared objects as well (operators,
    the contexts of subscripts and the like): no two identities are taken
    to be distinct. *)

Definition context_class (ctx : expr_context) : string :=
  match ctx with
  | Load => "Load"
  | Store => "Store"
  | Del => "Del"
  end.

Section SharedObjects.
(** The identities of the shared [Load()], [Store()] and [Del()]. *)
Variable context_id : expr_context -> nat.

Definition context_node (ctx : expr_context) : AST :=
  Generic (Meta (context_id ctx) None None None) (OtherNode (context_class ctx)) [].

(** [ast.iter_child_nodes(node)], the context objects included: the fields
    of a name are [id, ctx], those of an attribute access
    [value, attr, ctx]. *)
Definition child_nodes_in_full (n : AST) : list AST :=
  match n with
  | Name _ _ ctx => [context_node ctx]
  | Attribute _ value _ ctx => [value; context_node ctx]
  | _ => iter_child_nodes n
  end.

(** The loop of [_populate_parent_links] over these children. *)
Fixpoint populate_loop_in_full (fuel : nat) (stack : list AST) (parent : gmap nat AST)
    : outcome (gmap nat AST) :=
  match pop stack with
  | None => Ret parent
  | Some (node, stack) =>
      match fuel with
      | O => OutOfFuel
      | S fuel =>
          let '(parent, stack) :=
            link_children node (child_nodes_in_full node) parent stack in
          populate_loop_in_full fuel stack parent
      end
  end.

(** The number of nodes the loop pops, a shared object counted once for
    every node that has it. *)
Fixpoint node_count_in_full (n : AST) : nat :=
  match n with
  | Name _ _ _ => 2
  | Attribute _ value _ _ => S (S (node_count_in_full value))
  | Import _ names => S (List.length names)
  | ImportFrom _ _ names _ => S (List.length names)
  | Generic _ _ fields =>
      S ((fix sum (l : list AST) : nat :=
            match l with
            | [] => O
            | c :: l' => (node_count_in_full c + sum l')%nat
            end) fields)
  end.

Definition _populate_parent_links_in_full (tree : AST) : outcome (gmap nat AST) :=
  populate_loop_in_full (node_count_in_full tree) [tree] ∅.

(** The nodes of the tree, the shared objects where they occur. *)
Fixpoint subnodes_in_full (n : AST) : list AST :=
  n :: match n with
       | Name _ _ ctx => [context_node ctx]
       | Attribute _ value _ ctx => (subnodes_in_full value ++ [context_node ctx])%list
       | Import _ names | ImportFrom _ _ names _ => map alias_node names
       | Generic _ _ fields => flat_map subnodes_in_full fields
       end.

(** The entries the loop writes: one for every child of every node. *)
Fixpoint links_in_full (n : AST) : list (nat * AST) :=
  (map (fun c => (node_id c, n)) (child_nodes_in_full n)
   ++ match n with
      | Attribute _ value _ _ => links_in_full value
      | Generic _ _ fields => flat_map links_in_full fields
      | _ => []
      end)%list.

Definition count_all_in_full (l : list AST) : nat :=
  list_sum (map node_count_in_full l).
End SharedObjects.

(** ** Search and retrieval: [_iter_code_search_results],
    [_download_source] and [analyze_library]; [_run_analysis] of the web
    front end *)

Module PyText.

(** [s.endswith(suffix)]. *)
Fixpoint endswith (suffix s : string) : bool :=
  String.eqb suffix s
  || match s with
     | EmptyString => false
     | String _ s' => endswith suffix s'
     end.

(** [sub in s] on strings. *)
Fixpoint contains (sub s : string) : bool :=
  PyStr.startswith sub s
  || match s with
     | EmptyString => false
     | String _ s' => contains sub s'
     end.

End PyText.

(** The exception class of the module. *)
Definition GitHubError : exn := OtherError "GitHubError".

(** One result of the code search: the JSON object of the hit.  [item]
    holds the entries the analysis loop reads; the search loop reads the
    entry ["name"]. *)
Record hit : Type := Hit {
  hit_name : string;
  hit_item : item
}.

(** A JSON value as far as [_download_source] tells values apart. *)
Inductive json_value : Type :=
| JNull
| JString (s : string)
| JOther.

(** The JSON object of a file: the entry ["content"] when the key is
    there, and what [data.get("encoding")] returns, [JNull] standing for
    Python's [None] (key missing or null). *)
Record file_payload : Type := FilePayload {
  content : option json_value;
  encoding : json_value
}.

(** An HTTP response: status code, body text and what [response.json()]
    returns or raises. *)
Record response (A : Type) : Type := Response {
  status_code : Z;
  text : string;
  json : outcome A
}.

Arguments Response {A} _ _ _.
Arguments status_code {A} _.
Arguments text {A} _.
Arguments json {A} _.

(** [encoding == "base64"]. *)
Definition is_base64 (v : json_value) : bool :=
  match v with
  | JString s => String.eqb s "base64"
  | _ => false
  end.

(** [f'"{library}" language:Python in:file']. *)
Definition search_query (library : string) : string :=
  (String "034"%char library ++ String "034"%char " language:Python in:file")%string.

Section Client.
(** [self._client.get] on the search endpoint, by query, [per_page] and
    [page], and on the address of a file; both may raise.  The payload of a
    search is the entry ["items"] when the key is there. *)
Variable get_search : string -> Z -> Z -> outcome (response (option (list hit))).
Variable get_file : string -> outcome (response file_payload).

(** [response.raise_for_status()], by status code; [str.lower];
    [base64.b64decode] on the content entry; [bytes.decode("utf-8",
    errors="replace")]. *)
Variable raise_for_status : Z -> outcome unit.
Variable lower : string -> string.
Variable b64decode : json_value -> outcome string.
Variable decode_utf8_replace : string -> string.

(** The functions of the analysis facade. *)
Variable ast_parse : string -> outcome AST.
Variable splitlines : string -> list string.
Variable dedent strip : string -> string.

(** [response.status_code == 403 and "rate limit" in response.text.lower()]. *)
Definition rate_limited {A : Type} (r : response A) : bool :=
  Z.eqb (status_code r) 403 && PyText.contains "rate limit" (lower (text r)).

(** [for item in items] of the search loop: the hits kept, in order, and
    the new count; the loop is left when the count reaches the limit. *)
Fixpoint gather (limit : Z) (items : list hit) (gathered : Z) (found : list hit)
    : Z * list hit :=
  match items with
  | [] => (gathered, found)
  | it :: items' =>
      if PyText.endswith ".py" (hit_name it) then
        let found := (found ++ [it])%list in
        let gathered := gathered + 1 in
        if gathered >=? limit then (gathered, found)
        else gather limit items' gathered found
      else gather limit items' gathered found
  end.

(** [while gathered < limit], one unit of fuel per request; [found] is the
    list of the hits yielded so far. *)
Fixpoint search_loop (fuel : nat) (query : string) (per_page limit : Z)
    (gathered page : Z) (found : list hit) : outcome (list hit) :=
  if gathered <? limit then
    match fuel with
    | O => OutOfFuel
    | S fuel =>
        response ← get_search query per_page page;
        if rate_limited response then Raise GitHubError
        else
          _ ← raise_for_status (status_code response);
          payload ← json response;
          match default [] payload with
          | [] => Ret found
          | items =>
              let '(gathered, found) := gather limit items gathered found in
              search_loop fuel query per_page limit gathered (page + 1) found
          end
    end
  else Ret found.

(** [list(self._iter_code_search_results(library, per_page=..., limit=...))]:
    the generator run to its end.  Whether the loop ends depends on the
    server, hence the fuel. *)
Definition _iter_code_search_results (fuel : nat) (library : string)
    (per_page limit : Z) : outcome (list hit) :=
  search_loop fuel (search_query library) per_page limit 0 1 [].

Definition _download_source (api_url : string) : outcome string :=
  response ← get_file api_url;
  _ ← raise_for_status (status_code response);
  data ← json response;
  match content data with
  | None => Raise GitHubError
  | Some c =>
      if negb (is_base64 (encoding data)) then Raise GitHubError
      else decoded ← b64decode c; Ret (decode_utf8_replace decoded)
  end.

(** [analyze_library(library, max_files=..., per_page=...)]. *)
Definition analyze_library (fuel : nat) (library : string) (max_files per_page : Z)
    : outcome (list CodeBlock) :=
  items ← _iter_code_search_results fuel library per_page max_files;
  analyze_items ast_parse splitlines dedent strip _download_source library
    (map hit_item items) [].

(** [_run_analysis] of [api/index.py]; [per_page] has its default, 10.
    Opening and closing the HTTP client is left out. *)
Definition bounded_max (max_files : Z) : Z := Z.max 1 (Z.min max_files 20).

Definition _run_analysis (fuel : nat) (library : string) (max_files : Z)
    : outcome (list CodeBlock) :=
  analyze_library fuel library (bounded_max max_files) 10.

(** The server answers the requests for the pages 1, 2, ... of a query with
    the given lists of hits, without error. *)
Definition serves (query : string) (per_page : Z) (first_page : Z)
    (pages : list (list hit)) : Prop :=
  forall (k : nat) (items : list hit),
    pages !! k = Some items ->
    exists r payload,
      get_search query per_page (first_page + Z.of_nat k) = Ret r
      /\ rate_limited r = false
      /\ raise_for_status (status_code r) = Ret tt
      /\ json r = Ret payload
      /\ default [] payload = items.
End Client.

(** A hit for a Python file. *)
Definition is_python (h : hit) : bool := PyText.endswith ".py" (hit_name h).

(** ** Identifiers *)

(** A string without a dot, as every Python identifier is. *)
Fixpoint dot_free (s : string) : bool :=
  match s with
  | EmptyString => true
  | String c s' => negb (Ascii.eqb c dot) && dot_free s'
  end.

(** ** Sample modules

    The trees below are what the parser builds for the source texts next to
    them, identities numbered in the order the parser meets the nodes. *)

(** A dotted call inside a function. *)
Definition attr_source : string :=
"import pkg
def f():
    pkg.sub.fn()
".

Definition attr_ref : AST :=
  Attribute (Meta 7 (Some 3) (Some 4) (Some 3))
  (Attribute (Meta 8 (Some 3) (Some 4) (Some 3))
    (Name (Meta 9 (Some 3) (Some 4) (Some 3)) "pkg" Load)
      "sub" Load)
    "fn" Load.

Definition attr_tree : AST :=
  Generic (Meta 0 None None None) Mod
    [
      Import (Meta 1 (Some 1) (Some 0) (Some 1)) [Alias (Meta 2 (Some 1) (Some 7) (Some 1)) "pkg" None];
      Generic (Meta 3 (Some 2) (Some 0) (Some 3)) FunctionDef
        [
          Generic (Meta 4 None None None) (OtherNode "arguments") [];
          Generic (Meta 5 (Some 3) (Some 4) (Some 3)) (OtherStmt "Expr")
            [
              Generic (Meta 6 (Some 3) (Some 4) (Some 3)) (OtherExpr "Call")
                [
                  attr_ref ] ] ] ].

(** A reference in a statement nested in a top-level statement. *)
Definition nested_stmt_source : string :=
"import numpy as np
if True:
    x = np.zeros(3)
".

Definition nested_stmt_ref : AST :=
  Attribute (Meta 8 (Some 3) (Some 8) (Some 3))
  (Name (Meta 9 (Some 3) (Some 8) (Some 3)) "np" Load)
    "zeros" Load.

Definition nested_stmt_call : AST :=
  Generic (Meta 7 (Some 3) (Some 8) (Some 3)) (OtherExpr "Call")
    [
      nested_stmt_ref;
      Generic (Meta 10 (Some 3) (Some 17) (Some 3)) (OtherExpr "Constant") [] ].

Definition nested_stmt_assign : AST :=
  Generic (Meta 5 (Some 3) (Some 4) (Some 3)) (OtherStmt "Assign")
    [
      Name (Meta 6 (Some 3) (Some 4) (Some 3)) "x" Store;
      nested_stmt_call ].

Definition nested_stmt_if : AST :=
  Generic (Meta 3 (Some 2) (Some 0) (Some 3)) (OtherStmt "If")
    [
      Generic (Meta 4 (Some 2) (Some 3) (Some 2)) (OtherExpr "Constant") [];
      nested_stmt_assign ].

Definition nested_stmt_tree : AST :=
  Generic (Meta 0 None None None) Mod
    [
      Import (Meta 1 (Some 1) (Some 0) (Some 1)) [Alias (Meta 2 (Some 1) (Some 7) (Some 1)) "numpy" (Some "np")];
      nested_stmt_if ].

(** A conditional expression, whose test the tree stores before its body. *)
Definition cond_source : string :=
"import numpy as np
def f():
    return np.a if np.b else np.c
".

Definition cond_test : AST :=
  Attribute (Meta 7 (Some 3) (Some 19) (Some 3))
  (Name (Meta 8 (Some 3) (Some 19) (Some 3)) "np" Load)
    "b" Load.

Definition cond_body : AST :=
  Attribute (Meta 9 (Some 3) (Some 11) (Some 3))
  (Name (Meta 10 (Some 3) (Some 11) (Some 3)) "np" Load)
    "a" Load.

Definition cond_ifexp : AST :=
  Generic (Meta 6 (Some 3) (Some 11) (Some 3)) (OtherExpr "IfExp")
    [
      cond_test;
      cond_body;
      Attribute (Meta 11 (Some 3) (Some 29) (Some 3))
      (Name (Meta 12 (Some 3) (Some 29) (Some 3)) "np" Load)
        "c" Load ].

Definition cond_return : AST :=
  Generic (Meta 5 (Some 3) (Some 4) (Some 3)) (OtherStmt "Return")
    [
      cond_ifexp ].

Definition cond_def : AST :=
  Generic (Meta 3 (Some 2) (Some 0) (Some 3)) FunctionDef
    [
      Generic (Meta 4 None None None) (OtherNode "arguments") [];
      cond_return ].

Definition cond_tree : AST :=
  Generic (Meta 0 None None None) Mod
    [
      Import (Meta 1 (Some 1) (Some 0) (Some 1)) [Alias (Meta 2 (Some 1) (Some 7) (Some 1)) "numpy" (Some "np")];
      cond_def ].

(** A function inside a function, both with a reference. *)
Definition nested_def_source : string :=
"import numpy as np
def f():
    def g():
        return np.a
    return np.b
".

Definition nested_def_tree : AST :=
  Generic (Meta 0 None None None) Mod
    [
      Import (Meta 1 (Some 1) (Some 0) (Some 1)) [Alias (Meta 2 (Some 1) (Some 7) (Some 1)) "numpy" (Some "np")];
      Generic (Meta 3 (Some 2) (Some 0) (Some 5)) FunctionDef
        [
          Generic (Meta 4 None None None) (OtherNode "arguments") [];
          Generic (Meta 5 (Some 3) (Some 4) (Some 4)) FunctionDef
            [
              Generic (Meta 6 None None None) (OtherNode "arguments") [];
              Generic (Meta 7 (Some 4) (Some 8) (Some 4)) (OtherStmt "Return")
                [
                  Attribute (Meta 8 (Some 4) (Some 15) (Some 4))
                  (Name (Meta 9 (Some 4) (Some 15) (Some 4)) "np" Load)
                    "a" Load ] ];
          Generic (Meta 10 (Some 5) (Some 4) (Some 5)) (OtherStmt "Return")
            [
              Attribute (Meta 11 (Some 5) (Some 11) (Some 5))
              (Name (Meta 12 (Some 5) (Some 11) (Some 5)) "np" Load)
                "b" Load ] ] ].

(** An import statement inside a function body. *)
Definition local_import_source : string :=
"def f():
    import numpy as np
    return np.zeros(3)
".

Definition local_import_tree : AST :=
  Generic (Meta 0 None None None) Mod
    [
      Generic (Meta 1 (Some 1) (Some 0) (Some 3)) FunctionDef
        [
          Generic (Meta 2 None None None) (OtherNode "arguments") [];
          Import (Meta 3 (Some 2) (Some 4) (Some 2)) [Alias (Meta 4 (Some 2) (Some 11) (Some 2)) "numpy" (Some "np")];
          Generic (Meta 5 (Some 3) (Some 4) (Some 3)) (OtherStmt "Return")
            [
              Generic (Meta 6 (Some 3) (Some 11) (Some 3)) (OtherExpr "Call")
                [
                  Attribute (Meta 7 (Some 3) (Some 11) (Some 3))
                  (Name (Meta 8 (Some 3) (Some 11) (Some 3)) "np" Load)
                    "zeros" Load;
                  Generic (Meta 9 (Some 3) (Some 20) (Some 3)) (OtherExpr "Constant") [] ] ] ] ].

(** An alias rebound at the top level. *)
Definition rebind_source : string :=
"import numpy as np
np = 5
".

Definition rebind_target : AST :=
  Name (Meta 4 (Some 2) (Some 0) (Some 2)) "np" Store.

Definition rebind_assign : AST :=
  Generic (Meta 3 (Some 2) (Some 0) (Some 2)) (OtherStmt "Assign")
    [
      rebind_target;
      Generic (Meta 5 (Some 2) (Some 5) (Some 2)) (OtherExpr "Constant") [] ].

Definition rebind_tree : AST :=
  Generic (Meta 0 None None None) Mod
    [
      Import (Meta 1 (Some 1) (Some 0) (Some 1)) [Alias (Meta 2 (Some 1) (Some 7) (Some 1)) "numpy" (Some "np")];
      rebind_assign ].

(** An alias rebound inside a function. *)
Definition rebind_local_source : string :=
"import numpy as np
def f():
    np = 5
".

Definition rebind_local_target : AST :=
  Name (Meta 6 (Some 3) (Some 4) (Some 3)) "np" Store.

Definition rebind_local_assign : AST :=
  Generic (Meta 5 (Some 3) (Some 4) (Some 3)) (OtherStmt "Assign")
    [
      rebind_local_target;
      Generic (Meta 7 (Some 3) (Some 9) (Some 3)) (OtherExpr "Constant") [] ].

Definition rebind_local_def : AST :=
  Generic (Meta 3 (Some 2) (Some 0) (Some 3)) FunctionDef
    [
      Generic (Meta 4 None None None) (OtherNode "arguments") [];
      rebind_local_assign ].

Definition rebind_local_tree : AST :=
  Generic (Meta 0 None None None) Mod
    [
      Import (Meta 1 (Some 1) (Some 0) (Some 1)) [Alias (Meta 2 (Some 1) (Some 7) (Some 1)) "numpy" (Some "np")];
      rebind_local_def ].

(** A module that imports another library only. *)
Definition other_lib_source : string :=
"import pandas
x = pandas.DataFrame()
".

Definition other_lib_tree : AST :=
  Generic (Meta 0 None None None) Mod
    [
      Import (Meta 1 (Some 1) (Some 0) (Some 1)) [Alias (Meta 2 (Some 1) (Some 7) (Some 1)) "pandas" None];
      Generic (Meta 3 (Some 2) (Some 0) (Some 2)) (OtherStmt "Assign")
        [
          Name (Meta 4 (Some 2) (Some 0) (Some 2)) "x" Store;
          Generic (Meta 5 (Some 2) (Some 4) (Some 2)) (OtherExpr "Call")
            [
              Attribute (Meta 6 (Some 2) (Some 4) (Some 2))
              (Name (Meta 7 (Some 2) (Some 4) (Some 2)) "pandas" Load)
                "DataFrame" Load ] ] ].

(** A run of the parser that allocates its objects [k] identities further
    on. *)
Definition shift_meta (k : nat) (m : meta) : meta :=
  Meta (k + obj_id m) (lineno m) (col_offset m) (end_lineno m).

Fixpoint shift_ids (k : nat) (n : AST) : AST :=
  match n with
  | Name m id ctx => Name (shift_meta k m) id ctx
  | Attribute m value attr ctx => Attribute (shift_meta k m) (shift_ids k value) attr ctx
  | Import m names =>
      Import (shift_meta k m)
        (map (fun a => Alias (shift_meta k (alias_meta a)) (alias_name a) (alias_asname a)) names)
  | ImportFrom m module names level =>
      ImportFrom (shift_meta k m) module
        (map (fun a => Alias (shift_meta k (alias_meta a)) (alias_name a) (alias_asname a)) names)
        level
  | Generic m cls fields => Generic (shift_meta k m) cls (map (shift_ids k) fields)
  end.

(** A parser that knows the sample modules and rejects every other text. *)
Definition sample_parse (k : nat) (text : string) : outcome AST :=
  if String.eqb text attr_source then Ret (shift_ids k attr_tree)
  else if String.eqb text nested_def_source then Ret (shift_ids k nested_def_tree)
  else if String.eqb text rebind_source then Ret (shift_ids k rebind_tree)
  else if String.eqb text other_lib_source then Ret (shift_ids k other_lib_tree)
  else Raise SyntaxError.

(** Lines of a text that ends its lines with a line feed. *)
Definition sample_splitlines (text : string) : list string :=
  match rev (PyStr.split "010"%char text) with
  | EmptyString :: r => rev r
  | l => rev l
  end.

Definition sample_download (url : string) : outcome string :=
  if String.eqb url "ok" then Ret attr_source
  else if String.eqb url "broken" then Ret "def ("
  else Raise (OtherError "HTTPStatusError").

(** ** Parse failures *)

(** A text that holds the NUL character and nothing else. *)
Definition nul_text : string := String "000"%char EmptyString.

(** A parser that, as [ast.parse] does up to Python 3.11, raises
    [ValueError] and not [SyntaxError] on a text that holds a NUL character;
    on other texts it is [sample_parse]. *)
Definition legacy_parse (text : string) : outcome AST :=
  if PyText.contains nul_text text then Raise (OtherError "ValueError")
  else sample_parse 0 text.

(** The analysis of a text the parser fails on returns the empty list. *)
Definition parse_failure_silent (ast_parse : string -> outcome AST)
    (splitlines : string -> list string) (dedent strip : string -> string) : Prop :=
  forall (library source : string) (e : exn),
    ast_parse source = Raise e ->
    analyze_source ast_parse splitlines dedent strip library source = Ret [].

(** ** Sample servers *)

Definition sample_pages : list (list hit) :=
  [ [Hit "a.py" (Item "ok" "r1" "a.py" "h1"); Hit "notes.txt" (Item "ok" "r1" "notes.txt" "h2")];
    [Hit "b.py" (Item "ok" "r2" "b.py" "h3")];
    [] ].

(** A server that answers page [k] with the [k]-th list of [pages] and
    every further page with no hit. *)
Definition list_server (pages : list (list hit)) (query : string) (per_page page : Z)
    : outcome (response (option (list hit))) :=
  Ret (Response 200 "" (Ret (Some (List.nth (Z.to_nat (page - 1)) pages [])))).

(** A server that has only a text file to offer, on every page. *)
Definition text_server (query : string) (per_page page : Z)
    : outcome (response (option (list hit))) :=
  Ret (Response 200 "" (Ret (Some [Hit "notes.txt" (Item "ok" "r1" "notes.txt" "h2")]))).

(** A server that answers the first page and then reports the rate limit. *)
Definition limited_server (query : string) (per_page page : Z)
    : outcome (response (option (list hit))) :=
  if page =? 1
  then Ret (Response 200 "" (Ret (Some [Hit "a.py" (Item "ok" "r1" "a.py" "h1")])))
  else Ret (Response 403 "api rate limit exceeded" (Ret None)).

Definition sample_raise_for_status (code : Z) : outcome unit :=
  if 400 <=? code then Raise (OtherError "HTTPStatusError") else Ret tt.

(** A file server: one address with a payload in an encoding other than
    base64, the others as [sample_download] has them; a decoder that stands
    in for base64. *)
Definition sample_get_file (url : string) : outcome (response file_payload) :=
  if String.eqb url "hex"
  then Ret (Response 200 "" (Ret (FilePayload (Some (JString "696d706f7274")) (JString "hex"))))
  else match sample_download url with
       | Ret source =>
           Ret (Response 200 "" (Ret (FilePayload (Some (JString source)) (JString "base64"))))
       | _ => Ret (Response 404 "" (Ret (FilePayload None JNull)))
       end.

Definition sample_b64decode (v : json_value) : outcome string :=
  match v with
  | JString s => Ret s
  | _ => Raise (OtherError "TypeError")
  end.

(** ** Tactics for the sample modules *)

(** Membership in a list that is given element by element. *)
Ltac find_in_list :=
  simpl; repeat first [left; reflexivity | right].

(** Distinct identities of a tree given node by node. *)
Ltac prove_distinct_ids :=
  unfold distinct_ids; apply (bool_decide_unpack _); vm_compute; exact I.

(** * Properties *)

(** ** Strings *)

Lemma append_cons (a : ascii) (p rest : string) :
  (String a p ++ rest)%string = String a (p ++ rest)%string.
Proof. reflexivity. Qed.

Lemma append_assoc (a b c : string) :
  (a ++ (b ++ c))%string = ((a ++ b) ++ c)%string.
Proof.
  induction a as [|x a IH]; [reflexivity|].
  rewrite !append_cons. f_equal. exact IH.
Qed.

Lemma startswith_spec (p s : string) :
  PyStr.startswith p s = true <-> exists rest, s = (p ++ rest)%string.
Proof.
  revert s. induction p as [|a p IH]; intros s; simpl.
  - split; [intros _; exists s; reflexivity | reflexivity].
  - destruct s as [|b s].
    + split; [discriminate | intros [rest H]; discriminate].
    + destruct (Ascii.eqb_spec a b) as [->|Hne].
      * rewrite IH. split; intros [rest H]; exists rest;
          rewrite append_cons in *; congruence.
      * split; [discriminate | intros [rest H]; rewrite append_cons in H; congruence].
Qed.

Lemma split_nonempty (sep : ascii) (s : string) : PyStr.split sep s <> [].
Proof.
  induction s as [|c s IH]; simpl; [discriminate|].
  destruct (Ascii.eqb c sep); [discriminate|].
  destruct (PyStr.split sep s); discriminate.
Qed.

Lemma first_split_segment (s : string) :
  PyStr.first_segment s (PyStr.first (PyStr.split dot s)).
Proof.
  induction s as [|c s IH]; simpl; [constructor|].
  destruct (Ascii.eqb_spec c dot) as [->|Hne]; [constructor|].
  pose proof (split_nonempty dot s) as Hs.
  destruct (PyStr.split dot s) as [|piece rest]; [congruence|].
  simpl in *. constructor; assumption.
Qed.

Lemma first_segment_functional (s a b : string) :
  PyStr.first_segment s a -> PyStr.first_segment s b -> a = b.
Proof.
  intros Ha. revert b. induction Ha; intros b Hb; inversion Hb; subst;
    try reflexivity; try congruence.
  f_equal. auto.
Qed.

Lemma first_segment_iff (s seg : string) :
  PyStr.first_segment s seg <-> PyStr.first (PyStr.split dot s) = seg.
Proof.
  split.
  - intros H. eapply first_segment_functional; [apply first_split_segment | exact H].
  - intros <-. apply first_split_segment.
Qed.

(** C3. A module path [P] matches the library [L] exactly when [P = L], or
    [P] is [L] followed by a dot and more text, or [P] and [L] have the same
    first dotted segment. *)
Theorem matches_library_rule (L P : string) :
  AliasCollector._matches_library L P = true <->
  P = L
  \/ (exists rest, P = (L ++ "." ++ rest)%string)
  \/ (exists R, PyStr.first_segment L R /\ PyStr.first_segment P R).
Proof.
  unfold AliasCollector._matches_library, AliasCollector.base_root.
  rewrite !orb_true_iff, !String.eqb_eq, startswith_spec.
  split.
  - intros [[H|[rest H]]|H].
    + left; exact H.
    + right; left. exists rest. rewrite H, append_assoc. reflexivity.
    + right; right. exists (PyStr.first (PyStr.split dot L)). split.
      * apply first_split_segment.
      * apply first_segment_iff. exact H.
  - intros [H|[[rest H]|[R [HL HP]]]].
    + left; left; exact H.
    + left; right. exists rest. rewrite H, append_assoc. reflexivity.
    + right. apply first_segment_iff in HL, HP. congruence.
Qed.

(** ** The tree: induction over children, and the recursive notions unfolded
    through [iter_child_nodes] *)

Lemma AST_children_ind (P : AST -> Prop) :
  (forall n, Forall P (iter_child_nodes n) -> P n) -> forall n, P n.
Proof.
  intros H. fix IH 1. intros n. apply H. destruct n as [| |m names|m md names lv|m cls fields]; simpl.
  - constructor.
  - constructor; [apply IH | constructor].
  - induction names as [|a names IHn]; constructor; [|exact IHn].
    apply H. constructor.
  - induction names as [|a names IHn]; constructor; [|exact IHn].
    apply H. constructor.
  - induction fields as [|c fields IHf]; constructor; [apply IH | exact IHf].
Qed.

Lemma flat_map_alias_nodes {B : Type} (f : AST -> list B) (g : alias -> list B)
    (names : list alias) :
  (forall a, f (alias_node a) = g a) ->
  flat_map f (map alias_node names) = flat_map g names.
Proof.
  intros H. induction names as [|a names IH]; simpl; [reflexivity|].
  rewrite H, IH. reflexivity.
Qed.

Lemma flat_map_singletons {A B : Type} (f : A -> B) (l : list A) :
  flat_map (fun a => [f a]) l = map f l.
Proof. induction l as [|a l IH]; simpl; [reflexivity | rewrite IH; reflexivity]. Qed.

Lemma flat_map_nil {A B : Type} (l : list A) :
  flat_map (fun _ : A => @nil B) l = [].
Proof. induction l as [|a l IH]; simpl; [reflexivity | exact IH]. Qed.

Lemma subnodes_unfold (n : AST) :
  subnodes n = n :: flat_map subnodes (iter_child_nodes n).
Proof.
  destruct n; simpl; try reflexivity.
  - rewrite app_nil_r. reflexivity.
  - rewrite (flat_map_alias_nodes _ (fun a => [alias_node a])) by reflexivity.
    rewrite flat_map_singletons. reflexivity.
  - rewrite (flat_map_alias_nodes _ (fun a => [alias_node a])) by reflexivity.
    rewrite flat_map_singletons. reflexivity.
Qed.

Lemma positions_unfold (anc : list AST) (n : AST) :
  positions anc n = (anc, n) :: flat_map (positions (n :: anc)) (iter_child_nodes n).
Proof.
  destruct n; simpl; try reflexivity.
  - rewrite app_nil_r. reflexivity.
  - rewrite (flat_map_alias_nodes _ (fun a => [(Import m names :: anc, alias_node a)]))
      by reflexivity.
    rewrite flat_map_singletons. reflexivity.
  - rewrite (flat_map_alias_nodes _
               (fun a => [(ImportFrom m module names level :: anc, alias_node a)]))
      by reflexivity.
    rewrite flat_map_singletons. reflexivity.
Qed.

Lemma links_unfold (n : AST) :
  links n = (map (fun c => (node_id c, n)) (iter_child_nodes n)
             ++ flat_map links (iter_child_nodes n))%list.
Proof.
  destruct n; simpl; try reflexivity.
  - rewrite app_nil_r. reflexivity.
  - rewrite (flat_map_alias_nodes _ (fun _ => [])) by reflexivity.
    rewrite flat_map_nil. reflexivity.
  - rewrite (flat_map_alias_nodes _ (fun _ => [])) by reflexivity.
    rewrite flat_map_nil. reflexivity.
Qed.

Lemma candidates_unfold (aliases : gset string) (anc : list AST) (n : AST) :
  candidates aliases anc n
  = (own_candidate aliases anc n
     ++ flat_map (candidates aliases (n :: anc)) (iter_child_nodes n))%list.
Proof.
  destruct n; simpl; try reflexivity.
  - rewrite app_nil_r. reflexivity.
  - rewrite (flat_map_alias_nodes _ (fun _ => [])) by reflexivity.
    rewrite flat_map_nil. reflexivity.
  - rewrite (flat_map_alias_nodes _ (fun _ => [])) by reflexivity.
    rewrite flat_map_nil. reflexivity.
Qed.

Lemma node_count_unfold (n : AST) :
  node_count n = S (count_all (iter_child_nodes n)).
Proof.
  unfold count_all. destruct n as [| |m names|m md names lv|m cls fields]; simpl.
  - reflexivity.
  - rewrite Nat.add_0_r. reflexivity.
  - f_equal. induction names as [|a names IH]; simpl; [reflexivity | rewrite <- IH; reflexivity].
  - f_equal. induction names as [|a names IH]; simpl; [reflexivity | rewrite <- IH; reflexivity].
  - f_equal. induction fields as [|c fields IH]; simpl; [reflexivity | rewrite IH; reflexivity].
Qed.

Lemma count_all_app (l1 l2 : list AST) :
  count_all (l1 ++ l2) = (count_all l1 + count_all l2)%nat.
Proof. unfold count_all. rewrite map_app, list_sum_app. reflexivity. Qed.

(** ** Tree Builder *)

Lemma pop_nil {A : Type} : pop (@nil A) = None.
Proof. reflexivity. Qed.

Lemma pop_snoc {A : Type} (l : list A) (x : A) : pop (l ++ [x]) = Some (x, l).
Proof. unfold pop. rewrite rev_unit, rev_involutive. reflexivity. Qed.

Lemma link_children_spec (node : AST) (children : list AST)
    (parent : gmap nat AST) (stack : list AST) :
  link_children node children parent stack
  = (list_to_map (rev (map (fun c => (node_id c, node)) children)) ∪ parent,
     (stack ++ children)%list).
Proof.
  unfold link_children. revert parent stack.
  induction children as [|c cs IH]; intros parent stack; simpl.
  - rewrite (left_id_L ∅ (∪)), app_nil_r. reflexivity.
  - rewrite IH. f_equal.
    + rewrite list_to_map_app. simpl.
      rewrite <- (assoc_L (∪)). f_equal.
      rewrite <- insert_union_l, (left_id_L ∅ (∪)). reflexivity.
    + rewrite <- app_assoc. reflexivity.
Qed.

(** The loop ends within the fuel of one unit per node, on every stack. *)
Lemma populate_loop_total (fuel : nat) :
  forall (stack : list AST) (parent : gmap nat AST),
    (count_all stack <= fuel)%nat ->
    exists parent', populate_loop fuel stack parent = Ret parent'.
Proof.
  induction fuel as [|fuel IH]; intros stack parent Hfuel.
  - destruct stack as [|n stack] using rev_ind.
    + exists parent. reflexivity.
    + rewrite count_all_app in Hfuel. unfold count_all in Hfuel at 2. simpl in Hfuel.
      rewrite (node_count_unfold n) in Hfuel. lia.
  - destruct stack as [|n stack _] using rev_ind.
    + exists parent. reflexivity.
    + simpl. rewrite pop_snoc, link_children_spec. apply IH.
      rewrite count_all_app in *. unfold count_all in Hfuel at 2. simpl in Hfuel.
      rewrite (node_count_unfold n) in Hfuel. lia.
Qed.

Lemma populate_total (tree : AST) :
  exists parent, _populate_parent_links tree = Ret parent.
Proof.
  apply populate_loop_total. unfold count_all. simpl. lia.
Qed.

Lemma flat_map_links_snoc (stack : list AST) (n : AST) :
  flat_map links (stack ++ [n])
  = (flat_map links stack
     ++ map (fun c => (node_id c, n)) (iter_child_nodes n)
     ++ flat_map links (iter_child_nodes n))%list.
Proof. rewrite flat_map_app. simpl. rewrite app_nil_r, links_unfold. reflexivity. Qed.

(** With distinct identities the loop computes the parent links of the
    nodes on the stack, on top of the entries already there. *)
Lemma populate_loop_spec (fuel : nat) :
  forall (stack : list AST) (parent : gmap nat AST),
    (count_all stack <= fuel)%nat ->
    NoDup (map fst (flat_map links stack)) ->
    populate_loop fuel stack parent = Ret (list_to_map (flat_map links stack) ∪ parent).
Proof.
  induction fuel as [|fuel IH]; intros stack parent Hfuel Hnd.
  - destruct stack as [|n stack] using rev_ind.
    + simpl. rewrite (left_id_L ∅ (∪)). reflexivity.
    + rewrite count_all_app in Hfuel. unfold count_all in Hfuel at 2. simpl in Hfuel.
      rewrite (node_count_unfold n) in Hfuel. lia.
  - destruct stack as [|n stack _] using rev_ind.
    + simpl. rewrite (left_id_L ∅ (∪)). reflexivity.
    + simpl. rewrite pop_snoc, link_children_spec.
      set (L := map (fun c => (node_id c, n)) (iter_child_nodes n)) in *.
      assert (Hperm : (flat_map links (stack ++ iter_child_nodes n) ++ rev L)%list
                      ≡ₚ flat_map links (stack ++ [n])).
      { rewrite flat_map_links_snoc, flat_map_app. fold L.
        rewrite <- (Permutation_rev L).
        rewrite <- !app_assoc. apply Permutation_app_head, Permutation_app_comm. }
      rewrite IH.
      * rewrite (assoc_L (∪)), <- list_to_map_app. f_equal. f_equal.
        apply list_to_map_proper; [|exact Hperm].
        change (NoDup (map fst (flat_map links (stack ++ iter_child_nodes n) ++ rev L)%list)).
        rewrite Hperm. exact Hnd.
      * rewrite count_all_app in *. unfold count_all in Hfuel at 2. simpl in Hfuel.
        rewrite (node_count_unfold n) in Hfuel. lia.
      * assert (Hnd' : NoDup (map fst (flat_map links (stack ++ iter_child_nodes n) ++ rev L)%list)).
        { rewrite Hperm. exact Hnd. }
        rewrite map_app in Hnd'. apply NoDup_app in Hnd'. tauto.
Qed.

Lemma ids_links_perm (n : AST) :
  map node_id (subnodes n) ≡ₚ node_id n :: map fst (links n).
Proof.
  induction n as [n IH] using AST_children_ind.
  rewrite subnodes_unfold, links_unfold. simpl. constructor.
  rewrite map_app, map_map. simpl.
  induction (iter_child_nodes n) as [|c cs IHcs]; simpl; [reflexivity|].
  inversion IH as [|? ? Hc Hcs]; subst.
  rewrite !map_app, Hc, (IHcs Hcs). simpl. constructor.
  apply Permutation_app_swap_app.
Qed.

Lemma distinct_ids_links (tree : AST) :
  distinct_ids tree ->
  NoDup (map fst (links tree)) /\ ~ In (node_id tree) (map fst (links tree)).
Proof.
  unfold distinct_ids. rewrite ids_links_perm. intros H.
  apply NoDup_cons in H. destruct H as [H1 H2]. split; [exact H2|].
  intros Hin. apply H1. apply list_elem_of_In. exact Hin.
Qed.

Lemma populate_parent_links_spec (tree : AST) :
  distinct_ids tree ->
  _populate_parent_links tree = Ret (list_to_map (links tree)).
Proof.
  intros Hd. unfold _populate_parent_links.
  rewrite populate_loop_spec.
  - simpl. rewrite app_nil_r, (right_id_L ∅ (∪)). reflexivity.
  - unfold count_all. simpl. lia.
  - simpl. rewrite app_nil_r. apply distinct_ids_links. exact Hd.
Qed.

Lemma links_length (n : AST) : S (List.length (links n)) = node_count n.
Proof.
  induction n as [n IH] using AST_children_ind.
  rewrite links_unfold, node_count_unfold, length_app, length_map. f_equal.
  unfold count_all.
  induction (iter_child_nodes n) as [|c cs IHcs]; simpl; [reflexivity|].
  inversion IH as [|? ? Hc Hcs]; subst.
  rewrite length_app, <- Hc. specialize (IHcs Hcs). lia.
Qed.

Lemma parent_size (tree : AST) :
  distinct_ids tree ->
  S (size (list_to_map (links tree) : gmap nat AST)) = node_count tree.
Proof.
  intros Hd. rewrite map_size_list_to_map by (apply distinct_ids_links; exact Hd).
  apply links_length.
Qed.

(** *** Where a node sits in its tree *)

Lemma positions_inv (t : AST) :
  forall (anc0 a : list AST) (x : AST),
    In (a, x) (positions anc0 t) ->
    (a = anc0 /\ x = t)
    \/ exists p a', a = p :: a' /\ In (a', p) (positions anc0 t)
                    /\ In x (iter_child_nodes p).
Proof.
  induction t as [t IH] using AST_children_ind. intros anc0 a x Hin.
  rewrite positions_unfold in Hin. destruct Hin as [Heq|Hin].
  - left. split; congruence.
  - right. apply in_flat_map in Hin. destruct Hin as [c [Hc Hin]].
    rewrite Forall_forall in IH.
    destruct (IH c (proj2 (list_elem_of_In _ _) Hc) _ _ _ Hin) as [[-> ->]|[p [a' [-> [Hp Hx]]]]].
    + exists t, anc0. split; [reflexivity|]. split; [|exact Hc].
      rewrite positions_unfold. left. reflexivity.
    + exists p, a'. split; [reflexivity|]. split; [|exact Hx].
      rewrite positions_unfold. right. apply in_flat_map. exists c. split; assumption.
Qed.

Lemma positions_child (t : AST) :
  forall (anc0 a : list AST) (x c : AST),
    In (a, x) (positions anc0 t) -> In c (iter_child_nodes x) ->
    In (x :: a, c) (positions anc0 t).
Proof.
  induction t as [t IH] using AST_children_ind. intros anc0 a x c Hin Hc.
  rewrite positions_unfold in Hin. rewrite positions_unfold.
  destruct Hin as [Heq|Hin].
  - injection Heq as <- <-. right. apply in_flat_map. exists c. split; [exact Hc|].
    rewrite positions_unfold. left. reflexivity.
  - right. apply in_flat_map in Hin. destruct Hin as [d [Hd Hin]].
    apply in_flat_map. exists d. split; [exact Hd|].
    rewrite Forall_forall in IH.
    apply (IH d (proj2 (list_elem_of_In _ _) Hd)); assumption.
Qed.

Lemma positions_subnode (t : AST) :
  forall (anc0 a : list AST) (x : AST),
    In (a, x) (positions anc0 t) -> In x (subnodes t).
Proof.
  induction t as [t IH] using AST_children_ind. intros anc0 a x Hin.
  rewrite positions_unfold in Hin. rewrite subnodes_unfold.
  destruct Hin as [Heq|Hin].
  - left. congruence.
  - right. apply in_flat_map in Hin. destruct Hin as [d [Hd Hin]].
    apply in_flat_map. exists d. split; [exact Hd|].
    rewrite Forall_forall in IH.
    apply (IH d (proj2 (list_elem_of_In _ _) Hd) _ _ _ Hin).
Qed.

Lemma subnodes_position (t : AST) :
  forall (anc0 : list AST) (x : AST),
    In x (subnodes t) -> exists a, In (a, x) (positions anc0 t).
Proof.
  induction t as [t IH] using AST_children_ind. intros anc0 x Hin.
  rewrite subnodes_unfold in Hin.
  destruct Hin as [<-|Hin].
  - exists anc0. rewrite positions_unfold. left. reflexivity.
  - apply in_flat_map in Hin. destruct Hin as [d [Hd Hin]].
    rewrite Forall_forall in IH.
    destruct (IH d (proj2 (list_elem_of_In _ _) Hd) (t :: anc0) _ Hin) as [a Ha].
    exists a. rewrite positions_unfold. right. apply in_flat_map. exists d. split; assumption.
Qed.

Lemma positions_depth (t : AST) :
  forall (anc0 a : list AST) (x : AST),
    In (a, x) (positions anc0 t) ->
    (List.length a + node_count x <= List.length anc0 + node_count t)%nat.
Proof.
  induction t as [t IH] using AST_children_ind. intros anc0 a x Hin.
  rewrite positions_unfold in Hin. destruct Hin as [Heq|Hin].
  - injection Heq as <- <-. lia.
  - apply in_flat_map in Hin. destruct Hin as [d [Hd Hin]].
    rewrite Forall_forall in IH.
    pose proof (IH d (proj2 (list_elem_of_In _ _) Hd) _ _ _ Hin) as Hle. simpl in Hle.
    rewrite (node_count_unfold t).
    assert (node_count d <= count_all (iter_child_nodes t))%nat; [|lia].
    clear -Hd. unfold count_all.
    induction (iter_child_nodes t) as [|c cs IHcs]; [destruct Hd|].
    simpl. destruct Hd as [->|Hd]; [lia|]. specialize (IHcs Hd). lia.
Qed.

Lemma links_child (t p c : AST) :
  In p (subnodes t) -> In c (iter_child_nodes p) -> In (node_id c, p) (links t).
Proof.
  induction t as [t IH] using AST_children_ind. intros Hp Hc.
  rewrite subnodes_unfold in Hp. rewrite links_unfold. apply in_or_app.
  destruct Hp as [<-|Hp].
  - left. apply in_map_iff. exists c. split; [reflexivity | exact Hc].
  - right. apply in_flat_map in Hp. destruct Hp as [d [Hd Hp]].
    apply in_flat_map. exists d. split; [exact Hd|].
    rewrite Forall_forall in IH.
    apply (IH d (proj2 (list_elem_of_In _ _) Hd)); assumption.
Qed.

(** In the parent index of a tree, the parent chain of a node is its
    ancestor chain. *)
Lemma positions_chain (t : AST) :
  distinct_ids t ->
  forall (a : list AST) (x : AST),
    In (a, x) (positions [] t) -> chain (list_to_map (links t)) x a.
Proof.
  intros Hd. destruct (distinct_ids_links t Hd) as [Hnd Hroot].
  induction a as [|p a IH]; intros x Hin; simpl.
  - destruct (positions_inv _ _ _ _ Hin) as [[_ ->]|[p [a' [Heq _]]]]; [|discriminate].
    apply not_elem_of_list_to_map_1. intros H. apply Hroot.
    apply list_elem_of_In. exact H.
  - destruct (positions_inv _ _ _ _ Hin) as [[Heq _]|[p' [a' [Heq [Hp Hx]]]]]; [discriminate|].
    injection Heq as <- <-. split; [|apply IH; exact Hp].
    apply elem_of_list_to_map_1; [exact Hnd|].
    apply list_elem_of_In. apply links_child; [|exact Hx].
    eapply positions_subnode. exact Hp.
Qed.

(** ** Usage Locator *)

Section UsageFacts.
Variable dedent strip : string -> string.
Variable lines : list string.
Variable aliases : gset string.

(** The upward walk follows the parent chain and ends within a fuel of
    one unit per node on the chain. *)
Lemma enclosing_loop_chain (parent : gmap nat AST) (a : list AST) :
  forall (x : AST) (fuel : nat) (closest : option AST),
    chain parent x a -> (List.length a < fuel)%nat ->
    UsageCollector.enclosing_loop parent fuel (Some x) closest
    = Ret (walk (x :: a) closest).
Proof.
  induction a as [|p a IH]; intros x fuel closest Hch Hfuel;
    (destruct fuel as [|fuel]; [simpl in Hfuel; lia|]); simpl in *.
  - destruct (is_def x); [reflexivity|]. rewrite Hch.
    destruct fuel; reflexivity.
  - destruct Hch as [Hp Hch]. destruct (is_def x); [reflexivity|]. rewrite Hp.
    rewrite (IH p fuel _ Hch) by lia. reflexivity.
Qed.

Lemma record_spec (parent : gmap nat AST) (a : list AST) (x : AST)
    (sym : string) (m : blocks_map) :
  chain parent x a -> (List.length a <= size parent)%nat ->
  UsageCollector._record dedent strip lines parent x sym m
  = Ret (record_candidate dedent strip lines m (Candidate x a sym)).
Proof.
  intros Hch Hlen. unfold UsageCollector._record, UsageCollector._enclosing_block.
  rewrite (enclosing_loop_chain parent a) by (assumption || lia).
  unfold record_candidate, ref_key, block_key. simpl ref_node. simpl ref_ancestors.
  simpl ref_symbol. cbn [mbind outcome_bind].
  destruct (walk (x :: a) None) as [container|]; [|reflexivity].
  destruct (lineno (node_meta container)) as [start|]; [|reflexivity].
  destruct (has_key _ m); reflexivity.
Qed.

Lemma part_of_attribute_spec (parent : gmap nat AST) (a : list AST) (x : AST) :
  chain parent x a ->
  match a with p :: _ => In x (iter_child_nodes p) | [] => True end ->
  UsageCollector._part_of_attribute parent x
  = match a with Attribute _ _ _ _ :: _ => true | _ => false end.
Proof.
  unfold UsageCollector._part_of_attribute. destruct a as [|p a]; simpl.
  - intros -> _. reflexivity.
  - intros [-> _] Hin. destruct p; try reflexivity.
    simpl in Hin. destruct Hin as [->|[]]. apply Nat.eqb_refl.
Qed.

Lemma attribute_parts_path (n : AST) :
  forall (l parts : list string),
    dotted_path n = Some l ->
    UsageCollector.attribute_parts n parts = (parts ++ rev l)%list.
Proof.
  induction n as [m id ctx|m value IH attr ctx| | |]; intros l parts H; simpl in *;
    try discriminate.
  - injection H as <-. reflexivity.
  - destruct (dotted_path value) as [p|]; [|discriminate]. injection H as <-.
    rewrite (IH p) by reflexivity. rewrite rev_app_distr, <- app_assoc. reflexivity.
Qed.

Lemma attribute_root_path (n : AST) :
  match dotted_path n with
  | Some l => exists m id ctx rest,
      UsageCollector._attribute_root n = Name m id ctx /\ l = id :: rest
  | None => forall m id ctx, UsageCollector._attribute_root n <> Name m id ctx
  end.
Proof.
  induction n as [m id ctx|m value IH attr ctx| | |]; simpl; try discriminate.
  - exists m, id, ctx, []. split; reflexivity.
  - destruct (dotted_path value) as [p|]; [|exact IH].
    destruct IH as [m' [id [ctx' [rest [Hr ->]]]]].
    exists m', id, ctx', (rest ++ [attr])%list. split; [exact Hr | reflexivity].
Qed.

Lemma full_name_path (n : AST) (l : list string) :
  dotted_path n = Some l ->
  UsageCollector._attribute_full_name n = PyStr.join "." l.
Proof.
  intros H. unfold UsageCollector._attribute_full_name.
  rewrite (attribute_parts_path n l []) by exact H.
  simpl. rewrite rev_involutive. reflexivity.
Qed.

Section InTree.
Variable t : AST.
Hypothesis Hd : distinct_ids t.

Let parent : gmap nat AST := list_to_map (links t).

Lemma record_in_tree (a : list AST) (x : AST) (sym : string) (m : blocks_map) :
  In (a, x) (positions [] t) ->
  UsageCollector._record dedent strip lines parent x sym m
  = Ret (record_candidate dedent strip lines m (Candidate x a sym)).
Proof.
  intros Hin. apply record_spec.
  - apply positions_chain; assumption.
  - pose proof (positions_depth _ _ _ _ Hin) as Hdepth. simpl in Hdepth.
    pose proof (parent_size t Hd) as Hsize. fold parent in Hsize.
    pose proof (node_count_unfold x). lia.
Qed.

Lemma visit_own (a : list AST) (x : AST) (m : blocks_map) :
  In (a, x) (positions [] t) ->
  match x with
  | Name _ id _ => UsageCollector.visit_Name dedent strip lines aliases parent x id m
  | Attribute _ _ _ _ =>
      UsageCollector.visit_Attribute dedent strip lines aliases parent x m
  | _ => Ret m
  end
  = Ret (fold_left (record_candidate dedent strip lines) (own_candidate aliases a x) m).
Proof.
  intros Hin. destruct x as [mx id ctx|mx value attr ctx| | |]; try reflexivity.
  - unfold UsageCollector.visit_Name.
    rewrite (part_of_attribute_spec parent a).
    + simpl. destruct (bool_decide (id ∈ aliases)).
      * destruct a as [|[] a]; simpl; try reflexivity;
          apply record_in_tree; exact Hin.
      * destruct a as [|[] a]; reflexivity.
    + apply positions_chain; assumption.
    + destruct a as [|p a]; [exact I|].
      destruct (positions_inv _ _ _ _ Hin) as [[Heq _]|[p' [a' [Heq [_ Hx]]]]];
        [discriminate|]. injection Heq as <- <-. exact Hx.
  - unfold UsageCollector.visit_Attribute, own_candidate.
    pose proof (attribute_root_path (Attribute mx value attr ctx)) as Hroot.
    destruct (dotted_path (Attribute mx value attr ctx)) as [l|] eqn:Hpath.
    + destruct Hroot as [m' [id [ctx' [rest [Hr ->]]]]]. rewrite Hr.
      destruct (bool_decide (id ∈ aliases)); [|reflexivity].
      rewrite (full_name_path _ _ Hpath). simpl.
      apply record_in_tree. exact Hin.
    + destruct (UsageCollector._attribute_root (Attribute mx value attr ctx));
        try reflexivity.
      exfalso. eapply Hroot. reflexivity.
Qed.

(** The visitor records the candidates of the tree, one after the other. *)
Lemma visit_candidates (x : AST) :
  forall (a : list AST) (m : blocks_map),
    In (a, x) (positions [] t) ->
    UsageCollector.visit dedent strip lines aliases parent x m
    = Ret (fold_left (record_candidate dedent strip lines) (candidates aliases a x) m).
Proof.
  induction x as [x IH] using AST_children_ind. intros a m Hin.
  pose proof (visit_own a x m Hin) as Hown.
  rewrite candidates_unfold, fold_left_app.
  destruct x as [mx id ctx|mx value attr ctx|mx names|mx md names lv|mx cls fields].
  - simpl. exact Hown.
  - simpl UsageCollector.visit. rewrite Hown. cbn [mbind outcome_bind].
    simpl iter_child_nodes. simpl flat_map. rewrite app_nil_r.
    inversion IH as [|? ? Hv _]; subst. apply Hv.
    apply positions_child; [exact Hin | left; reflexivity].
  - simpl. rewrite (flat_map_alias_nodes _ (fun _ => [])) by reflexivity.
    rewrite flat_map_nil. reflexivity.
  - simpl. rewrite (flat_map_alias_nodes _ (fun _ => [])) by reflexivity.
    rewrite flat_map_nil. reflexivity.
  - simpl own_candidate. simpl fold_left at 2. simpl iter_child_nodes in *.
    assert (Hch : forall c, In c fields ->
              In (Generic mx cls fields :: a, c) (positions [] t)).
    { intros c Hc. apply positions_child; assumption. }
    clear Hown Hin. simpl UsageCollector.visit.
    set (anc := Generic mx cls fields :: a) in *. clearbody anc.
    revert m. induction fields as [|c fields IHf]; intros m; [reflexivity|].
    inversion IH as [|? ? Hc Hcs]; subst.
    rewrite (Hc _ m (Hch c (or_introl eq_refl))). cbn [mbind outcome_bind].
    simpl flat_map. rewrite fold_left_app.
    apply IHf; [exact Hcs|].
    intros c' Hc'. apply Hch. right. exact Hc'.
Qed.
End InTree.
End UsageFacts.

(** ** The upward walk *)

Lemma find_app {A : Type} (f : A -> bool) (l1 l2 : list A) :
  List.find f (l1 ++ l2)
  = match List.find f l1 with Some x => Some x | None => List.find f l2 end.
Proof.
  induction l1 as [|x l1 IH]; simpl; [reflexivity|].
  destruct (f x); [reflexivity | exact IH].
Qed.

(** A definition on the chain: the walk returns the first one. *)
Lemma walk_first_def (ch : list AST) (d : AST) :
  forall closest, List.find is_def ch = Some d -> walk ch closest = Some d.
Proof.
  induction ch as [|cur rest IH]; intros closest H; simpl in *; [discriminate|].
  destruct (is_def cur); [exact H | apply IH; exact H].
Qed.

(** No definition on the chain: the walk returns the statement farthest
    from the reference, or what it was started with. *)
Lemma walk_outermost_stmt (ch : list AST) :
  forall closest, List.find is_def ch = None ->
    walk ch closest
    = match outermost_stmt ch with Some s => Some s | None => closest end.
Proof.
  unfold outermost_stmt.
  induction ch as [|cur rest IH]; intros closest H; simpl in *; [reflexivity|].
  destruct (is_def cur); [discriminate|].
  rewrite (IH _ H), find_app. simpl.
  destruct (List.find is_stmt (rev rest)); [reflexivity|].
  destruct (is_stmt cur); reflexivity.
Qed.

Lemma walk_result (ch : list AST) :
  forall closest s, walk ch closest = Some s ->
    (In s ch /\ (is_def s = true \/ is_stmt s = true)) \/ closest = Some s.
Proof.
  induction ch as [|cur rest IH]; intros closest s H; simpl in *; [right; exact H|].
  destruct (is_def cur) eqn:Hdef.
  - injection H as <-. left. split; [left; reflexivity | left; exact Hdef].
  - destruct (IH _ _ H) as [[Hin Hk]|Hc].
    + left. split; [right; exact Hin | exact Hk].
    + destruct (is_stmt cur) eqn:Hstmt; [|right; exact Hc].
      injection Hc as <-. left. split; [left; reflexivity | right; exact Hstmt].
Qed.

(** ** Recording candidates *)

Section Recording.
Variable dedent strip : string -> string.
Variable lines : list string.

Abbreviation record := (record_candidate dedent strip lines).
Abbreviation run := (fold_left (record_candidate dedent strip lines)).
Abbreviation entry_of := (block_entry dedent strip lines).

Lemma has_key_In (k : Z * Z) (m : blocks_map) :
  has_key k m = true <-> In k (map fst m).
Proof.
  unfold has_key. rewrite existsb_exists. split.
  - intros [e [He Heq]]. apply andb_true_iff in Heq. destruct Heq as [H1 H2].
    apply Z.eqb_eq in H1, H2. apply in_map_iff. exists e. split; [|exact He].
    destruct e as [[a b] v], k as [a' b']. simpl in *. congruence.
  - intros Hin. apply in_map_iff in Hin. destruct Hin as [e [<- He]].
    exists e. split; [exact He|]. rewrite !Z.eqb_refl. reflexivity.
Qed.

Lemma record_cases (m : blocks_map) (c : candidate) :
  (record m c = m
   /\ match ref_key c with Some k => In k (map fst m) | None => True end)
  \/ exists k, ref_key c = Some k /\ ~ In k (map fst m)
               /\ record m c = (m ++ [entry_of k c])%list.
Proof.
  unfold record_candidate. destruct (ref_key c) as [[start end_]|]; [|left; split; trivial].
  destruct (has_key (start, end_) m) eqn:Hk.
  - left. split; [reflexivity | apply has_key_In; exact Hk].
  - right. exists (start, end_). split; [reflexivity|]. split; [|reflexivity].
    rewrite <- has_key_In, Hk. discriminate.
Qed.

(** A candidate whose key is taken leaves the dictionary as it is. *)
Lemma record_taken (m : blocks_map) (c : candidate) (k : Z * Z) :
  ref_key c = Some k -> In k (map fst m) -> record m c = m.
Proof.
  intros Hk Hin. destruct (record_cases m c) as [[H _]|[k' [Hk' [Hn _]]]]; [exact H|].
  congruence.
Qed.

Lemma run_extends (cs : list candidate) :
  forall m, exists ext, run cs m = (m ++ ext)%list.
Proof.
  induction cs as [|c cs IH]; intros m; simpl.
  - exists []. rewrite app_nil_r. reflexivity.
  - destruct (IH (record m c)) as [ext Hext]. rewrite Hext.
    destruct (record_cases m c) as [[-> _]|[k [_ [_ ->]]]].
    + exists ext. reflexivity.
    + exists (entry_of k c :: ext). rewrite <- app_assoc. reflexivity.
Qed.

Lemma run_keeps (cs : list candidate) (m : blocks_map) (e : (Z * Z) * _BlockCapture) :
  In e m -> In e (run cs m).
Proof.
  intros H. destruct (run_extends cs m) as [ext ->]. apply in_or_app. left. exact H.
Qed.

(** After a candidate has been met, its key is in the dictionary. *)
Lemma run_has_key (cs : list candidate) :
  forall m c k, In c cs -> ref_key c = Some k -> In k (map fst (run cs m)).
Proof.
  induction cs as [|c0 cs IH]; intros m c k Hin Hk; [destruct Hin|].
  simpl. destruct Hin as [->|Hin]; [|eapply IH; eassumption].
  assert (Hm : In k (map fst (record m c))).
  { destruct (record_cases m c) as [[-> H]|[k' [Hk' [_ ->]]]].
    - rewrite Hk in H. exact H.
    - rewrite map_app. apply in_or_app. right. left. simpl. congruence. }
  apply in_map_iff in Hm. destruct Hm as [e [He Hin]].
  apply in_map_iff. exists e. split; [exact He | apply run_keeps; exact Hin].
Qed.

(** Every entry made during a run is the entry of the first candidate
    with its key. *)
Lemma run_origin (cs : list candidate) :
  forall m e, In e (run cs m) ->
    In e m
    \/ exists pre c post,
         cs = (pre ++ c :: post)%list
         /\ ref_key c = Some (fst e)
         /\ (forall c', In c' pre -> ref_key c' <> Some (fst e))
         /\ ~ In (fst e) (map fst m)
         /\ e = entry_of (fst e) c.
Proof.
  induction cs as [|c0 cs IH]; intros m e Hin; simpl in Hin; [left; exact Hin|].
  destruct (IH _ _ Hin) as [Hm|[pre [c [post [-> [Hk [Hpre [Hnot He]]]]]]]].
  - destruct (record_cases m c0) as [[Heq _]|[k [Hk [Hn Heq]]]]; rewrite Heq in Hm.
    + left. exact Hm.
    + apply in_app_or in Hm. destruct Hm as [Hm|[<-|[]]]; [left; exact Hm|].
      right. exists [], c0, cs. simpl. repeat split; try assumption.
      intros c' [].
  - right. exists (c0 :: pre), c, post. simpl. repeat split; try assumption.
    + intros c' [<-|Hc']; [|apply Hpre; exact Hc'].
      intros Hk0. apply Hnot.
      destruct (record_cases m c0) as [[-> H]|[k' [Hk' [_ ->]]]].
      * rewrite Hk0 in H. exact H.
      * rewrite map_app. apply in_or_app. right. left. simpl. congruence.
    + intros Hm. apply Hnot.
      destruct (run_extends [c0] m) as [ext Hext]. simpl in Hext. rewrite Hext.
      rewrite map_app. apply in_or_app. left. exact Hm.
Qed.

Lemma run_keys_nodup (cs : list candidate) :
  forall m, NoDup (map fst m) -> NoDup (map fst (run cs m)).
Proof.
  induction cs as [|c cs IH]; intros m Hm; simpl; [exact Hm|].
  apply IH. destruct (record_cases m c) as [[-> _]|[k [_ [Hn ->]]]]; [exact Hm|].
  rewrite map_app. apply NoDup_app. split; [exact Hm|]. split.
  - intros x Hx Hx'. apply list_elem_of_In in Hx, Hx'.
    destruct Hx' as [<-|[]]. apply Hn. exact Hx.
  - simpl. apply NoDup_singleton.
Qed.

Lemma run_spans (cs : list candidate) :
  map span (blocks (run cs [])) = map fst (run cs []).
Proof.
  unfold blocks. rewrite map_map. apply map_ext_in. intros e He.
  destruct (run_origin cs [] e He) as [[]|[_ [c [_ [_ [_ [_ [_ Heq]]]]]]]].
  rewrite Heq. destruct (fst e). reflexivity.
Qed.

(** The first candidate with a free key gets its entry. *)
Lemma run_first (pre post : list candidate) (r : candidate) (k : Z * Z) :
  ref_key r = Some k ->
  (forall c, In c pre -> ref_key c <> Some k) ->
  In (entry_of k r) (run (pre ++ r :: post) []).
Proof.
  intros Hk Hpre. rewrite fold_left_app. simpl. apply run_keeps.
  destruct (record_cases (run pre []) r) as [[_ H]|[k' [Hk' [_ ->]]]].
  - rewrite Hk in H. apply in_map_iff in H. destruct H as [e [He Hin]].
    destruct (run_origin pre [] e Hin) as [[]|[p1 [c [p2 [-> [Hc _]]]]]].
    exfalso. apply (Hpre c); [apply in_or_app; right; left; reflexivity|].
    congruence.
  - apply in_or_app. right. left. congruence.
Qed.

(** The run reads of a candidate its key and its symbol only. *)
Lemma run_view (cs1 : list candidate) :
  forall cs2 m,
    map (fun c => (ref_key c, ref_symbol c)) cs1
    = map (fun c => (ref_key c, ref_symbol c)) cs2 ->
    run cs1 m = run cs2 m.
Proof.
  induction cs1 as [|c1 cs1 IH]; intros [|c2 cs2] m H; simpl in H; try discriminate;
    [reflexivity|].
  injection H as Hk Hs Hrest. simpl.
  assert (Heq : record m c1 = record m c2).
  { unfold record_candidate. rewrite Hk, Hs. reflexivity. }
  rewrite Heq. apply IH. exact Hrest.
Qed.
End Recording.

(** ** Alias Resolver *)

Section AliasFacts.
Variable library : string.

Lemma visit_Import_spec (names : list alias) :
  forall (acc : gset string) (x : string),
    x ∈ AliasCollector.visit_Import library names acc
    <-> x ∈ acc \/ binds library (Import (Meta O None None None) names) x.
Proof.
  unfold AliasCollector.visit_Import. simpl binds.
  induction names as [|a names IH]; intros acc x; simpl.
  - split; [left; assumption|]. intros [H|[a [Ha _]]]; [exact H|].
    apply list_elem_of_In in Ha. destruct Ha.
  - rewrite IH. unfold AliasCollector.import_alias. split.
    + intros [H|[b [Hb Hrest]]].
      * destruct (AliasCollector._matches_library library (alias_name a)) eqn:Hm;
          [|left; exact H].
        destruct (alias_asname a) as [[|c s]|] eqn:Has;
          (apply elem_of_union in H; destruct H as [H|H]; [|left; exact H]);
          apply elem_of_singleton in H; right; exists a;
          (split; [left|]); rewrite ?Has; auto.
      * right. exists b. split; [right; exact Hb | exact Hrest].
    + intros [H|[b [Hb [Hm Hx]]]].
      * left. destruct (AliasCollector._matches_library library (alias_name a));
          [|exact H].
        destruct (alias_asname a) as [[|c s]|]; apply elem_of_union; right; exact H.
      * apply list_elem_of_In in Hb. destruct Hb as [<-|Hb].
        -- left. rewrite Hm. subst x.
           destruct (alias_asname a) as [[|c s]|]; apply elem_of_union; left;
             apply elem_of_singleton; reflexivity.
        -- right. exists b. split; [apply list_elem_of_In; exact Hb|]. split; assumption.
Qed.

Lemma import_from_spec (module : string) (names : list alias) :
  forall (acc : gset string) (x : string),
    x ∈ fold_left (AliasCollector.import_from_alias library module) names acc
    <-> x ∈ acc
        \/ exists a, a ∈ names
             /\ if String.eqb (alias_name a) "*"
                then x = PyStr.final (PyStr.split dot module)
                     \/ x = AliasCollector.base_root library
                else x = PyStr.or_else (alias_asname a) (alias_name a).
Proof.
  induction names as [|a names IH]; intros acc x; simpl.
  - split; [left; assumption|]. intros [H|[a [Ha _]]]; [exact H|].
    apply list_elem_of_In in Ha. destruct Ha.
  - rewrite IH. unfold AliasCollector.import_from_alias. split.
    + intros [H|[b [Hb Hrest]]].
      * destruct (String.eqb (alias_name a) "*") eqn:Hstar.
        -- apply elem_of_union in H. destruct H as [H|H].
           ++ apply elem_of_singleton in H. right. exists a. split; [left|].
              rewrite Hstar. right. exact H.
           ++ apply elem_of_union in H. destruct H as [H|H]; [|left; exact H].
              apply elem_of_singleton in H. right. exists a. split; [left|].
              rewrite Hstar. left. exact H.
        -- apply elem_of_union in H. destruct H as [H|H]; [|left; exact H].
           apply elem_of_singleton in H. right. exists a. split; [left|].
           rewrite Hstar. exact H.
      * right. exists b. split; [right; exact Hb | exact Hrest].
    + intros [H|[b [Hb Hx]]].
      * left. destruct (String.eqb (alias_name a) "*");
          rewrite ?elem_of_union; auto.
      * apply list_elem_of_In in Hb. destruct Hb as [<-|Hb].
        -- left. destruct (String.eqb (alias_name a) "*");
             rewrite ?elem_of_union, ?elem_of_singleton; tauto.
        -- right. exists b. split; [apply list_elem_of_In; exact Hb | exact Hx].
Qed.

Lemma visit_ImportFrom_spec (module : option string) (names : list alias) (level : Z) :
  forall (acc : gset string) (x : string),
    x ∈ AliasCollector.visit_ImportFrom library module names acc
    <-> x ∈ acc \/ binds library (ImportFrom (Meta O None None None) module names level) x.
Proof.
  intros acc x. unfold AliasCollector.visit_ImportFrom. simpl binds.
  destruct module as [[|c0 m0]|]; simpl; try tauto.
  destruct (AliasCollector._matches_library library (String c0 m0)) eqn:Hm.
  - rewrite import_from_spec. tauto.
  - split; [left; assumption|]. intros [H|[H _]]; [exact H | discriminate].
Qed.

Lemma alias_visit_unfold (n : AST) (acc : gset string) :
  AliasCollector.visit library n acc
  = fold_left (fun acc c => AliasCollector.visit library c acc)
      (iter_child_nodes n) (alias_step library n acc).
Proof.
  assert (Hleaves : forall names acc',
            fold_left (fun acc c => AliasCollector.visit library c acc)
              (map alias_node names) acc' = acc').
  { induction names as [|a names IH]; intros acc'; simpl; [reflexivity | apply IH]. }
  destruct n as [| |m names|m md names lv|m cls fields]; simpl;
    rewrite ?Hleaves; reflexivity.
Qed.

Lemma alias_step_spec (n : AST) (acc : gset string) (x : string) :
  x ∈ alias_step library n acc <-> x ∈ acc \/ binds library n x.
Proof.
  destruct n as [| |m names|m md names lv|m cls fields]; simpl alias_step;
    try (simpl; tauto).
  - apply visit_Import_spec.
  - apply (visit_ImportFrom_spec md names lv).
Qed.

Lemma alias_visit_spec (n : AST) :
  forall (acc : gset string) (x : string),
    x ∈ AliasCollector.visit library n acc
    <-> x ∈ acc \/ exists n', In n' (subnodes n) /\ binds library n' x.
Proof.
  induction n as [n IH] using AST_children_ind. intros acc x.
  rewrite alias_visit_unfold, subnodes_unfold.
  assert (Hfold : forall cs acc',
    Forall (fun c => forall acc x,
              x ∈ AliasCollector.visit library c acc
              <-> x ∈ acc \/ exists n', In n' (subnodes c) /\ binds library n' x) cs ->
    x ∈ fold_left (fun acc c => AliasCollector.visit library c acc) cs acc'
    <-> x ∈ acc' \/ exists n', In n' (flat_map subnodes cs) /\ binds library n' x).
  { induction cs as [|c cs IHcs]; intros acc' Hall; simpl.
    - split; [left; assumption|]. intros [H|[n' [[] _]]]. exact H.
    - inversion Hall as [|? ? Hc Hcs]; subst.
      rewrite (IHcs _ Hcs), Hc. split.
      + intros [[H|[n' [Hn' Hb]]]|[n' [Hn' Hb]]].
        * left; exact H.
        * right. exists n'. split; [apply in_or_app; left; exact Hn' | exact Hb].
        * right. exists n'. split; [apply in_or_app; right; exact Hn' | exact Hb].
      + intros [H|[n' [Hn' Hb]]]; [left; left; exact H|].
        apply in_app_or in Hn'. destruct Hn' as [Hn'|Hn'].
        * left. right. exists n'. split; assumption.
        * right. exists n'. split; assumption. }
  rewrite (Hfold _ _ IH), alias_step_spec. split.
  - intros [[H|H]|[n' [Hn' Hb]]].
    + left; exact H.
    + right. exists n. split; [left; reflexivity | exact H].
    + right. exists n'. split; [right; exact Hn' | exact Hb].
  - intros [H|[n' [[<-|Hn'] Hb]]].
    + left; left; exact H.
    + left; right; exact Hb.
    + right. exists n'. split; assumption.
Qed.

Lemma binds_imports (n : AST) (x : string) :
  binds library n x -> imports_library library n = true.
Proof.
  destruct n as [| |m names|m md names lv|m cls fields]; simpl; try tauto.
  - intros [a [Ha [Hm _]]]. apply existsb_exists. exists a.
    split; [apply list_elem_of_In; exact Ha | exact Hm].
  - destruct md as [[|c0 m0]|]; tauto.
Qed.
End AliasFacts.

(** ** Analysis Facade *)

Lemma candidates_no_alias (n : AST) :
  forall anc, candidates ∅ anc n = [].
Proof.
  induction n as [n IH] using AST_children_ind. intros anc.
  rewrite candidates_unfold.
  assert (Hown : own_candidate ∅ anc n = []).
  { destruct n as [m id ctx|m value attr ctx| | |]; simpl; try reflexivity.
    - destruct anc as [|[] anc]; reflexivity.
    - destruct (dotted_path value) as [[|base segments]|]; reflexivity. }
  rewrite Hown. simpl.
  induction (iter_child_nodes n) as [|c cs IHcs]; simpl; [reflexivity|].
  inversion IH as [|? ? Hc Hcs]; subst. rewrite Hc, (IHcs Hcs). reflexivity.
Qed.

Section FacadeFacts.
Variable ast_parse : string -> outcome AST.
Variable splitlines : string -> list string.
Variable dedent strip : string -> string.
Variable _download_source : string -> outcome string.

(** On a tree of distinct objects the extractor returns, in order, the
    blocks that recording the candidates one by one leaves in the
    dictionary. *)
Lemma extract_blocks_spec (self : _LibraryUsageExtractor) :
  distinct_ids (tree self) ->
  extract_blocks dedent strip self
  = Ret (blocks (fold_left (record_candidate dedent strip (lines self))
                   (analysis_candidates (library self) (tree self)) [])).
Proof.
  intros Hd. unfold extract_blocks, analysis_candidates.
  rewrite (populate_parent_links_spec _ Hd). cbn [mbind outcome_bind].
  destruct (bool_decide_reflect (AliasCollector.collect (library self) (tree self) = ∅))
    as [->|_].
  - rewrite candidates_no_alias. reflexivity.
  - unfold UsageCollector.collect.
    rewrite (visit_candidates dedent strip (lines self) _ (tree self) Hd (tree self) [] []).
    + reflexivity.
    + rewrite positions_unfold. left. reflexivity.
Qed.

Lemma analyze_source_parsed (library source : string) (t : AST) :
  ast_parse source = Ret t ->
  analyze_source ast_parse splitlines dedent strip library source
  = extract_blocks dedent strip (Extractor library source (splitlines source) t).
Proof. intros H. unfold analyze_source, init. rewrite H. reflexivity. Qed.

(** C5, amended. When the parser rejects a source text by raising
    [SyntaxError], the analysis of that text returns the empty list and
    raises nothing; in the loop over the search hits, such a file adds no
    block and the loop goes on with the next hit. *)
Theorem parse_failure_is_silent (library source : string) :
  ast_parse source = Raise SyntaxError ->
  analyze_source ast_parse splitlines dedent strip library source = Ret []
  /\ forall (it : item) (items : list item) (results : list CodeBlock),
       _download_source (item_url it) = Ret source ->
       analyze_items ast_parse splitlines dedent strip _download_source
         library (it :: items) results
       = analyze_items ast_parse splitlines dedent strip _download_source
           library items results.
Proof.
  intros Hparse.
  assert (Hsrc : analyze_source ast_parse splitlines dedent strip library source = Ret []).
  { unfold analyze_source, init. rewrite Hparse. reflexivity. }
  split; [exact Hsrc|].
  intros it items results Hdl. simpl. rewrite Hdl, Hsrc. cbn [mbind outcome_bind].
  simpl. rewrite app_nil_r. reflexivity.
Qed.

Lemma no_import_no_alias (library : string) (t : AST) :
  mentions_library library t = false ->
  AliasCollector.collect library t = ∅.
Proof.
  intros Hno. apply set_eq. intros x. unfold AliasCollector.collect.
  rewrite alias_visit_spec. split.
  - intros [H|[n [Hn Hb]]]; [exact H|].
    apply binds_imports in Hb.
    assert (Hex : mentions_library library t = true).
    { apply existsb_exists. exists n. split; assumption. }
    congruence.
  - intros H. left. exact H.
Qed.

(** C6. When no import statement of the parsed source, at any depth,
    names a module path that matches the library, the alias set is empty and
    the analysis returns the empty list. *)
Theorem no_import_no_blocks (library source : string) (t : AST) :
  ast_parse source = Ret t ->
  mentions_library library t = false ->
  AliasCollector.collect library t = ∅
  /\ analyze_source ast_parse splitlines dedent strip library source = Ret [].
Proof.
  intros Hparse Hno.
  pose proof (no_import_no_alias _ _ Hno) as Hal. split; [exact Hal|].
  rewrite (analyze_source_parsed _ _ _ Hparse). unfold extract_blocks. simpl.
  destruct (populate_total t) as [parent ->]. cbn [mbind outcome_bind].
  rewrite Hal. reflexivity.
Qed.
End FacadeFacts.

(** C5 as stated fails: a text with a NUL character is not valid source
    text, and a parser that rejects it with [ValueError] (as [ast.parse]
    does up to Python 3.11) is not covered by the clause that catches
    [SyntaxError]; the error leaves the analysis of the text, and with it
    the loop over the search hits. *)
Lemma nul_byte_escapes :
  legacy_parse nul_text = Raise (OtherError "ValueError")
  /\ analyze_source legacy_parse sample_splitlines (fun s => s) (fun s => s)
       "numpy" nul_text
     = Raise (OtherError "ValueError")
  /\ analyze_items legacy_parse sample_splitlines (fun s => s) (fun s => s)
       (fun _ => Ret nul_text) "numpy" [Item "u" "r" "p" "h"] []
     = Raise (OtherError "ValueError")
  /\ ~ parse_failure_silent legacy_parse sample_splitlines (fun s => s) (fun s => s).
Proof.
  split; [reflexivity|]. split; [reflexivity|]. split; [reflexivity|].
  intros Hclaim.
  specialize (Hclaim "numpy" nul_text (OtherError "ValueError") eq_refl).
  discriminate Hclaim.
Qed.

Lemma parse_failure_is_silent_witness :
  sample_parse 0 "def (" = Raise SyntaxError
  /\ analyze_source (sample_parse 0) sample_splitlines (fun s => s) (fun s => s)
       "numpy" "def (" = Ret [].
Proof.
  split; [reflexivity|].
  apply (parse_failure_is_silent (sample_parse 0) sample_splitlines
           (fun s => s) (fun s => s) sample_download "numpy" "def (").
  reflexivity.
Defined.

Lemma no_import_no_blocks_witness :
  sample_parse 0 other_lib_source = Ret other_lib_tree
  /\ mentions_library "numpy" other_lib_tree = false
  /\ analyze_source (sample_parse 0) sample_splitlines (fun s => s) (fun s => s)
       "numpy" other_lib_source = Ret [].
Proof.
  split; [reflexivity|]. split; [reflexivity|].
  apply (no_import_no_blocks (sample_parse 0) sample_splitlines
           (fun s => s) (fun s => s) "numpy" other_lib_source other_lib_tree);
    reflexivity.
Defined.

(** ** Enclosing blocks *)

(** On a tree of distinct objects the upward walk ends and returns what
    [walk] computes on the ancestor chain of the reference. *)
Lemma enclosing_block_in_tree (t : AST) (a : list AST) (x : AST) :
  distinct_ids t -> In (a, x) (positions [] t) ->
  UsageCollector._enclosing_block (list_to_map (links t)) x = Ret (walk (x :: a) None).
Proof.
  intros Hd Hin. unfold UsageCollector._enclosing_block.
  apply enclosing_loop_chain.
  - apply positions_chain; assumption.
  - pose proof (positions_depth _ _ _ _ Hin) as Hdepth. simpl in Hdepth.
    pose proof (parent_size t Hd) as Hsize.
    pose proof (node_count_unfold x). lia.
Qed.

(** C1. For the module [nested_stmt_source] the reference [np.zeros] sits in
    an assignment inside a top-level [if]; no definition encloses it.  The
    upward walk returns the [if] statement (lines 2 to 3), the statement
    farthest from the reference, where the nearest statement is the
    assignment (line 3); the block reported has the span of the [if]. *)
Theorem enclosing_block_of_nested_statement :
  let chain_of_ref :=
    [nested_stmt_ref; nested_stmt_call; nested_stmt_assign; nested_stmt_if;
     nested_stmt_tree] in
  In (tl chain_of_ref, nested_stmt_ref) (positions [] nested_stmt_tree)
  /\ (exists parent,
        _populate_parent_links nested_stmt_tree = Ret parent
        /\ UsageCollector._enclosing_block parent nested_stmt_ref
           = Ret (Some nested_stmt_if))
  /\ nearest_block chain_of_ref = Some nested_stmt_assign
  /\ outermost_stmt chain_of_ref = Some nested_stmt_if
  /\ block_key nested_stmt_if = Some (2, 3)
  /\ block_key nested_stmt_assign = Some (3, 3)
  /\ forall dedent strip : string -> string,
       map span <$> extract_blocks dedent strip
         (Extractor "numpy" nested_stmt_source
            (sample_splitlines nested_stmt_source) nested_stmt_tree)
       = Ret [(2, 3)].
Proof.
  simpl tl. split.
  { find_in_list. }
  split.
  { eexists. split; [vm_compute; reflexivity|]. vm_compute. reflexivity. }
  repeat split; try reflexivity.
Qed.

(** ** Resolved symbols *)

(** C2. An attribute access whose innermost base is a bare identifier of
    the alias set is handed to [_record] with the dotted path as symbol: the
    base identifier followed by every attribute segment, outermost last,
    joined with dots.  For [import pkg] and the single reference
    [pkg.sub.fn()] inside [f], the block of [f] carries the symbol
    [pkg.sub.fn]. *)
Theorem attribute_symbol_is_dotted_path :
  (forall (dedent strip : string -> string) (lines : list string)
          (aliases : gset string) (parent : gmap nat AST)
          (m : meta) (value : AST) (attr : string) (ctx : expr_context)
          (base : string) (segments : list string) (bm : blocks_map),
      dotted_path (Attribute m value attr ctx) = Some (base :: segments) ->
      base ∈ aliases ->
      UsageCollector.visit_Attribute dedent strip lines aliases parent
        (Attribute m value attr ctx) bm
      = UsageCollector._record dedent strip lines parent
          (Attribute m value attr ctx) (PyStr.join "." (base :: segments)) bm)
  /\ dotted_path attr_ref = Some ["pkg"; "sub"; "fn"]
  /\ PyStr.join "." ["pkg"; "sub"; "call"] = "pkg.sub.call"
  /\ forall dedent strip : string -> string,
       extract_blocks dedent strip
         (Extractor "pkg" attr_source (sample_splitlines attr_source) attr_tree)
       = Ret [BlockCapture 2 3 "pkg.sub.fn"
                (strip (dedent "def f():
    pkg.sub.fn()"))].
Proof.
  split; [|repeat split; intros; reflexivity].
  intros dedent strip lines aliases parent m value attr ctx base segments bm Hpath Hbase.
  unfold UsageCollector.visit_Attribute.
  pose proof (attribute_root_path (Attribute m value attr ctx)) as Hroot.
  rewrite Hpath in Hroot. destruct Hroot as [m' [id [ctx' [rest [Hr Heq]]]]].
  injection Heq as <- <-. rewrite Hr.
  rewrite (bool_decide_eq_true_2 _ Hbase).
  rewrite (full_name_path _ _ Hpath). reflexivity.
Qed.

Lemma attribute_symbol_is_dotted_path_witness :
  dotted_path attr_ref = Some ["pkg"; "sub"; "fn"]
  /\ "pkg" ∈ ({[ "pkg" ]} : gset string)
  /\ UsageCollector.visit_Attribute (fun s => s) (fun s => s) [] {[ "pkg" ]} ∅ attr_ref []
     = UsageCollector._record (fun s => s) (fun s => s) [] ∅ attr_ref "pkg.sub.fn" [].
Proof.
  split; [reflexivity|]. split; [apply elem_of_singleton; reflexivity|].
  apply (proj1 attribute_symbol_is_dotted_path (fun s => s) (fun s => s) []
           {[ "pkg" ]} ∅ _ _ _ _ "pkg" ["sub"; "fn"] []).
  - reflexivity.
  - apply elem_of_singleton; reflexivity.
Defined.

(** ** Deduplication *)

Lemma blocks_In (m : blocks_map) (b : _BlockCapture) :
  In b (blocks m) -> exists k, In (k, b) m.
Proof.
  unfold blocks. intros H. apply in_map_iff in H. destruct H as [[k b'] [<- H]].
  exists k. exact H.
Qed.

(** C4 as stated fails: in [cond_source] the three references of [f] fall
    into the one block of [f]; [np.a] comes first in the source text, and the
    block carries [np.b], the test of the conditional expression, which the
    visitor meets first. *)
Lemma first_in_document_order_loses :
  exists bs,
    extract_blocks (fun s => s) (fun s => s)
      (Extractor "numpy" cond_source (sample_splitlines cond_source) cond_tree)
    = Ret bs
    /\ map symbol bs = ["np.b"]
    /\ ~ document_order_wins (analysis_candidates "numpy" cond_tree) bs.
Proof.
  eexists. split; [vm_compute; reflexivity|]. split; [reflexivity|].
  intros Hclaim.
  assert (Hcs : analysis_candidates "numpy" cond_tree
                = [Candidate cond_test [cond_ifexp; cond_return; cond_def; cond_tree] "np.b";
                   Candidate cond_body [cond_ifexp; cond_return; cond_def; cond_tree] "np.a";
                   Candidate
                     (Attribute (Meta 11 (Some 3) (Some 29) (Some 3))
                        (Name (Meta 12 (Some 3) (Some 29) (Some 3)) "np" Load) "c" Load)
                     [cond_ifexp; cond_return; cond_def; cond_tree] "np.c"])
    by (vm_compute; reflexivity).
  specialize (Hclaim _
    (Candidate cond_body [cond_ifexp; cond_return; cond_def; cond_tree] "np.a")
    (or_introl eq_refl)).
  rewrite Hcs in Hclaim.
  assert (Hfirst : symbol (BlockCapture 2 3 "np.b" "def f():
    return np.a if np.b else np.c") = "np.a"); [|discriminate Hfirst].
  apply Hclaim; [|reflexivity].
  split; [right; left; reflexivity|].
  intros c' [<-|[<-|[<-|[]]]] _; simpl; lia.
Qed.

(** C4, amended. On a tree of distinct objects the analysis returns blocks
    with pairwise distinct spans; each block carries the symbol of the first
    candidate with its span in the order the visitor meets the candidates
    (parents before children, children in the order of the tree's fields),
    and the snippet of its span; a candidate whose span is taken leaves the
    dictionary as it is. *)
Theorem first_candidate_wins (dedent strip : string -> string)
    (self : _LibraryUsageExtractor) :
  distinct_ids (tree self) ->
  exists bs,
    extract_blocks dedent strip self = Ret bs
    /\ NoDup (map span bs)
    /\ (forall b, In b bs ->
          exists pre c post,
            analysis_candidates (library self) (tree self) = (pre ++ c :: post)%list
            /\ ref_key c = Some (span b)
            /\ (forall c', In c' pre -> ref_key c' <> Some (span b))
            /\ symbol b = ref_symbol c
            /\ snippet b
               = UsageCollector.make_snippet dedent strip (lines self)
                   (start_line b) (end_line b))
    /\ (forall (a : list AST) (x : AST) (sym : string) (k : Z * Z) (m : blocks_map),
          In (a, x) (positions [] (tree self)) ->
          ref_key (Candidate x a sym) = Some k ->
          has_key k m = true ->
          UsageCollector._record dedent strip (lines self)
            (list_to_map (links (tree self))) x sym m = Ret m).
Proof.
  intros Hd. eexists. split; [apply extract_blocks_spec; exact Hd|].
  set (cs := analysis_candidates (library self) (tree self)).
  split; [|split].
  - rewrite run_spans. apply run_keys_nodup. constructor.
  - intros b Hb. apply blocks_In in Hb. destruct Hb as [k Hb].
    destruct (run_origin dedent strip (lines self) cs [] _ Hb)
      as [[]|[pre [c [post [Hcs [Hk [Hpre [_ He]]]]]]]].
    destruct k as [start end_]. simpl in Hk, Hpre, He. injection He as ->.
    exists pre, c, post. repeat split; assumption.
  - intros a x sym k m Hin Hk Hm.
    rewrite (record_in_tree dedent strip (lines self) (tree self) Hd a x sym m Hin).
    f_equal. eapply record_taken; [exact Hk|]. apply has_key_In. exact Hm.
Qed.

Lemma first_candidate_wins_witness :
  distinct_ids cond_tree
  /\ exists bs,
       extract_blocks (fun s => s) (fun s => s)
         (Extractor "numpy" cond_source (sample_splitlines cond_source) cond_tree)
       = Ret bs
       /\ NoDup (map span bs).
Proof.
  assert (Hd : distinct_ids cond_tree) by prove_distinct_ids.
  split; [exact Hd|].
  destruct (first_candidate_wins (fun s => s) (fun s => s)
              (Extractor "numpy" cond_source (sample_splitlines cond_source) cond_tree) Hd)
    as [bs [H1 [H2 _]]].
  exists bs. split; assumption.
Defined.

(** ** Spans of the blocks *)

Lemma candidates_positions (aliases : gset string) (t : AST) :
  forall (anc0 : list AST) (c : candidate),
    In c (candidates aliases anc0 t) ->
    In (ref_ancestors c, ref_node c) (positions anc0 t).
Proof.
  induction t as [t IH] using AST_children_ind. intros anc0 c Hin.
  rewrite candidates_unfold in Hin. rewrite positions_unfold.
  apply in_app_or in Hin. destruct Hin as [Hin|Hin].
  - left. destruct t as [m id ctx|m value attr ctx| | |]; simpl in Hin; try contradiction.
    + destruct anc0 as [|[] anc0]; destruct (bool_decide (id ∈ aliases));
        simpl in Hin; try contradiction; destruct Hin as [<-|[]]; reflexivity.
    + destruct (dotted_path value) as [[|base segments]|]; simpl in Hin;
        try contradiction;
        match type of Hin with
        | In _ (if ?b then _ else _) => destruct b
        end; simpl in Hin; try contradiction; destruct Hin as [<-|[]]; reflexivity.
  - right. apply in_flat_map in Hin. destruct Hin as [d [Hd Hin]].
    apply in_flat_map. exists d. split; [exact Hd|].
    rewrite Forall_forall in IH.
    apply (IH d (proj2 (list_elem_of_In _ _) Hd)). exact Hin.
Qed.

Lemma positions_ancestors (t : AST) (a : list AST) :
  forall x, In (a, x) (positions [] t) -> forall p, In p (x :: a) -> In p (subnodes t).
Proof.
  induction a as [|p0 a IH]; intros x Hin p Hp.
  - destruct Hp as [<-|[]]. eapply positions_subnode. exact Hin.
  - destruct Hp as [<-|Hp]; [eapply positions_subnode; exact Hin|].
    destruct (positions_inv _ _ _ _ Hin) as [[Heq _]|[p' [a' [Heq [Hp' _]]]]];
      [discriminate|].
    injection Heq as <- <-. apply (IH p0 Hp' p Hp).
Qed.

(** C7 as stated fails: in [nested_def_source] both [g] and the [f] around it
    hold a reference; the analysis returns a block for [g] (lines 3 to 4) and
    one for [f] (lines 2 to 5), and the second contains the first. *)
Lemma nested_definitions_overlap :
  exists bs,
    extract_blocks (fun s => s) (fun s => s)
      (Extractor "numpy" nested_def_source (sample_splitlines nested_def_source)
         nested_def_tree)
    = Ret bs
    /\ map span bs = [(3, 4); (2, 5)]
    /\ ~ non_overlapping bs.
Proof.
  eexists. split; [vm_compute; reflexivity|]. split; [reflexivity|].
  intros Hclaim.
  apply (Hclaim 0%nat 1%nat _ _ eq_refl eq_refl); [lia|].
  unfold spans_overlap. simpl. lia.
Qed.

(** C7, amended. On a tree of distinct objects no two blocks of one
    analysis have the same span, and each span is the line range of a node of
    the tree that is a definition or a statement.  Spans of different blocks
    may share lines. *)
Theorem blocks_have_distinct_spans (dedent strip : string -> string)
    (self : _LibraryUsageExtractor) :
  distinct_ids (tree self) ->
  exists bs,
    extract_blocks dedent strip self = Ret bs
    /\ (forall (i j : nat) (b1 b2 : _BlockCapture),
          bs !! i = Some b1 -> bs !! j = Some b2 -> i <> j -> span b1 <> span b2)
    /\ (forall b, In b bs ->
          exists container,
            In container (subnodes (tree self))
            /\ (is_def container = true \/ is_stmt container = true)
            /\ block_key container = Some (span b)).
Proof.
  intros Hd. eexists. split; [apply extract_blocks_spec; exact Hd|].
  set (cs := analysis_candidates (library self) (tree self)).
  split.
  - intros i j b1 b2 Hi Hj Hne Heq.
    assert (Hnd : NoDup (map span (blocks (fold_left
                    (record_candidate dedent strip (lines self)) cs []))))
      by (rewrite run_spans; apply run_keys_nodup; constructor).
    apply Hne. eapply NoDup_lookup; [exact Hnd| |].
    + change (map span ?l) with (span <$> l). rewrite list_lookup_fmap, Hi. reflexivity.
    + change (map span ?l) with (span <$> l). rewrite list_lookup_fmap, Hj, Heq.
      reflexivity.
  - intros b Hb. apply blocks_In in Hb. destruct Hb as [k Hb].
    destruct (run_origin dedent strip (lines self) cs [] _ Hb)
      as [[]|[pre [c [post [Hcs [Hk [_ [_ He]]]]]]]].
    destruct k as [start end_]. simpl in Hk, He. injection He as ->.
    unfold ref_key in Hk.
    destruct (walk (ref_node c :: ref_ancestors c) None) as [container|] eqn:Hw;
      [|discriminate].
    exists container. destruct (walk_result _ _ _ Hw) as [[Hin Hkind]|]; [|discriminate].
    split; [|split; assumption].
    apply (positions_ancestors (tree self) (ref_ancestors c) (ref_node c)); [|exact Hin].
    apply (candidates_positions (AliasCollector.collect (library self) (tree self))).
    fold (analysis_candidates (library self) (tree self)). fold cs.
    rewrite Hcs. apply in_or_app. right. left. reflexivity.
Qed.

Lemma blocks_have_distinct_spans_witness :
  distinct_ids nested_def_tree
  /\ exists b1 b2,
       extract_blocks (fun s => s) (fun s => s)
         (Extractor "numpy" nested_def_source (sample_splitlines nested_def_source)
            nested_def_tree)
       = Ret [b1; b2]
       /\ span b1 <> span b2.
Proof.
  assert (Hd : distinct_ids nested_def_tree) by prove_distinct_ids.
  split; [exact Hd|].
  destruct (blocks_have_distinct_spans (fun s => s) (fun s => s)
              (Extractor "numpy" nested_def_source
                 (sample_splitlines nested_def_source) nested_def_tree) Hd)
    as [bs [H1 [H2 _]]].
  assert (Hbs : extract_blocks (fun s => s) (fun s => s)
                  (Extractor "numpy" nested_def_source
                     (sample_splitlines nested_def_source) nested_def_tree)
                = Ret [BlockCapture 3 4 "np.a" "    def g():
        return np.a";
                       BlockCapture 2 5 "np.b" "def f():
    def g():
        return np.a
    return np.b"])
    by (vm_compute; reflexivity).
  do 2 eexists. split; [exact Hbs|].
  rewrite Hbs in H1. injection H1 as <-.
  apply (H2 0%nat 1%nat); [reflexivity | reflexivity | lia].
Defined.

(** ** Where aliases come from *)

(** C8 as stated fails: in [local_import_source] the only import statement
    stands inside the body of [f]; it contributes the alias [np] although no
    top-level statement binds it. *)
Lemma nested_import_contributes :
  "np" ∈ AliasCollector.collect "numpy" local_import_tree
  /\ ~ only_top_level_imports "numpy" local_import_tree.
Proof.
  assert (Hnp : "np" ∈ AliasCollector.collect "numpy" local_import_tree)
    by (apply (bool_decide_unpack _); vm_compute; exact I).
  split; [exact Hnp|].
  intros Hclaim. destruct (Hclaim "np" Hnp) as [s [[<-|[]] Hb]]. exact Hb.
Qed.

(** C8, amended. An identifier is in the alias set exactly when some import
    statement of the module, at the top level or nested at any depth, binds
    it: a direct import whose module path matches the library binds the
    explicit local name or else the first segment of the path; a from-import
    whose module matches binds the local name of each imported name, and for
    a wildcard the last segment of the module and the root segment of the
    library. *)
Theorem aliases_from_imports (library : string) (t : AST) (x : string) :
  x ∈ AliasCollector.collect library t
  <-> exists n, In n (subnodes t) /\ binds library n x.
Proof.
  unfold AliasCollector.collect. rewrite alias_visit_spec. split.
  - intros [H|H]; [|exact H]. apply not_elem_of_empty in H. destruct H.
  - intros H. right. exact H.
Qed.

(** ** Independence of object identities *)

Lemma iter_child_nodes_erase (n : AST) :
  iter_child_nodes (erase n) = map erase (iter_child_nodes n).
Proof.
  destruct n as [| |m names|m md names lv|m cls fields]; simpl; try reflexivity;
    rewrite !map_map; reflexivity.
Qed.

Lemma alias_step_erase (library : string) (n : AST) (acc : gset string) :
  alias_step library (erase n) acc = alias_step library n acc.
Proof.
  destruct n as [| |m names|m md names lv|m cls fields]; simpl; try reflexivity.
  - unfold AliasCollector.visit_Import. revert acc.
    induction names as [|a names IH]; intros acc; simpl; [reflexivity | apply IH].
  - unfold AliasCollector.visit_ImportFrom. destruct md as [module|]; [|reflexivity].
    destruct (PyStr.truthy (Some module) && AliasCollector._matches_library library module);
      [|reflexivity].
    revert acc. induction names as [|a names IH]; intros acc; simpl; [reflexivity | apply IH].
Qed.

Lemma alias_visit_erase (library : string) (n : AST) :
  forall acc, AliasCollector.visit library (erase n) acc = AliasCollector.visit library n acc.
Proof.
  induction n as [n IH] using AST_children_ind. intros acc.
  rewrite !alias_visit_unfold, alias_step_erase, iter_child_nodes_erase.
  generalize (alias_step library n acc). clear acc.
  induction (iter_child_nodes n) as [|c cs IHcs]; intros acc; simpl; [reflexivity|].
  inversion IH as [|? ? Hc Hcs]; subst. rewrite Hc. apply IHcs. exact Hcs.
Qed.

Lemma is_def_erase (n : AST) : is_def (erase n) = is_def n.
Proof. destruct n as [| | | |m [] fields]; reflexivity. Qed.

Lemma is_stmt_erase (n : AST) : is_stmt (erase n) = is_stmt n.
Proof. destruct n as [| | | |m [] fields]; reflexivity. Qed.

Lemma block_key_erase (n : AST) : block_key (erase n) = block_key n.
Proof. destruct n; reflexivity. Qed.

Lemma dotted_path_erase (n : AST) : dotted_path (erase n) = dotted_path n.
Proof.
  induction n as [|m value IH attr ctx| | |]; simpl; try reflexivity.
  rewrite IH. reflexivity.
Qed.

Lemma walk_erase (ch : list AST) :
  forall closest,
    walk (map erase ch) (option_map erase closest) = option_map erase (walk ch closest).
Proof.
  induction ch as [|cur rest IH]; intros closest; simpl; [reflexivity|].
  rewrite is_def_erase, is_stmt_erase. destruct (is_def cur); [reflexivity|].
  rewrite <- IH. destruct (is_stmt cur); reflexivity.
Qed.

Lemma ref_key_erase (n : AST) (anc : list AST) (sym : string) :
  ref_key (Candidate (erase n) (map erase anc) sym) = ref_key (Candidate n anc sym).
Proof.
  unfold ref_key. cbn [ref_node ref_ancestors].
  pose proof (walk_erase (n :: anc) None) as Hw. cbn [map option_map] in Hw.
  rewrite Hw.
  destruct (walk (n :: anc) None); simpl; [apply block_key_erase | reflexivity].
Qed.

Lemma own_candidate_erase (aliases : gset string) (anc : list AST) (n : AST) :
  map (fun c => (ref_key c, ref_symbol c)) (own_candidate aliases (map erase anc) (erase n))
  = map (fun c => (ref_key c, ref_symbol c)) (own_candidate aliases anc n).
Proof.
  destruct n as [m id ctx|m value attr ctx| | |]; simpl; try reflexivity.
  - destruct anc as [|[] anc]; simpl; try reflexivity;
      destruct (bool_decide (id ∈ aliases)); simpl; try reflexivity;
      f_equal; f_equal;
      match goal with
      | |- _ = ref_key (Candidate ?n ?a ?s) => exact (ref_key_erase n a s)
      end.
  - rewrite dotted_path_erase.
    destruct (dotted_path value) as [[|base segments]|]; simpl; try reflexivity;
      match goal with
      | |- context [bool_decide ?P] => destruct (bool_decide P)
      end; simpl; try reflexivity; f_equal; f_equal;
      apply (ref_key_erase (Attribute m value attr ctx)).
Qed.

Lemma candidates_erase (aliases : gset string) (n : AST) :
  forall anc,
    map (fun c => (ref_key c, ref_symbol c)) (candidates aliases (map erase anc) (erase n))
    = map (fun c => (ref_key c, ref_symbol c)) (candidates aliases anc n).
Proof.
  induction n as [n IH] using AST_children_ind. intros anc.
  rewrite !candidates_unfold, !map_app, own_candidate_erase, iter_child_nodes_erase.
  f_equal.
  change (erase n :: map erase anc) with (map erase (n :: anc)).
  generalize (n :: anc). intros anc'.
  induction (iter_child_nodes n) as [|c cs IHcs]; simpl; [reflexivity|].
  inversion IH as [|? ? Hc Hcs]; subst.
  rewrite !map_app, Hc, (IHcs Hcs). reflexivity.
Qed.

Lemma analysis_view_erase (library : string) (t1 t2 : AST) :
  erase t1 = erase t2 ->
  map (fun c => (ref_key c, ref_symbol c)) (analysis_candidates library t1)
  = map (fun c => (ref_key c, ref_symbol c)) (analysis_candidates library t2).
Proof.
  intros Heq. unfold analysis_candidates, AliasCollector.collect.
  rewrite <- (alias_visit_erase library t1), <- (alias_visit_erase library t2), Heq.
  rewrite <- (candidates_erase _ t1 []), <- (candidates_erase _ t2 []), Heq.
  reflexivity.
Qed.

(** C9. Two runs of the analysis on the same library and text return the
    same outcome, block for block and field for field: the runs may differ
    in the objects the parser allocates for the tree, and the outcome does
    not depend on them. *)
Theorem analysis_is_deterministic (parse1 parse2 : string -> outcome AST)
    (splitlines : string -> list string) (dedent strip : string -> string)
    (library source : string) :
  same_parse (parse1 source) (parse2 source) ->
  analyze_source parse1 splitlines dedent strip library source
  = analyze_source parse2 splitlines dedent strip library source.
Proof.
  unfold same_parse. intros Hsame.
  destruct (parse1 source) as [t1|e1|] eqn:H1; destruct (parse2 source) as [t2|e2|] eqn:H2;
    try contradiction.
  - destruct Hsame as [Heq [Hd1 Hd2]].
    rewrite (analyze_source_parsed parse1 splitlines dedent strip _ _ _ H1).
    rewrite (analyze_source_parsed parse2 splitlines dedent strip _ _ _ H2).
    rewrite !extract_blocks_spec by assumption. simpl. f_equal. f_equal.
    apply run_view. apply analysis_view_erase. exact Heq.
  - subst e2. unfold analyze_source, init. rewrite H1, H2. reflexivity.
  - unfold analyze_source, init. rewrite H1, H2. reflexivity.
Qed.

Lemma analysis_is_deterministic_witness :
  same_parse (sample_parse 0 attr_source) (sample_parse 100 attr_source)
  /\ analyze_source (sample_parse 0) sample_splitlines (fun s => s) (fun s => s)
       "pkg" attr_source
     = analyze_source (sample_parse 100) sample_splitlines (fun s => s) (fun s => s)
         "pkg" attr_source.
Proof.
  assert (Hsame : same_parse (sample_parse 0 attr_source) (sample_parse 100 attr_source)).
  { change (sample_parse 0 attr_source) with (Ret (shift_ids 0 attr_tree)).
    change (sample_parse 100 attr_source) with (Ret (shift_ids 100 attr_tree)).
    split; [reflexivity|]. split; prove_distinct_ids. }
  split; [exact Hsame|].
  apply (analysis_is_deterministic (sample_parse 0) (sample_parse 100) sample_splitlines
           (fun s => s) (fun s => s) "pkg" attr_source Hsame).
Defined.

(** ** Names in store position *)

(** A bare identifier of the alias set whose parent is not an attribute
    access is a candidate, whatever its context. *)
Lemma name_is_candidate (aliases : gset string) (t : AST) :
  forall (anc0 a : list AST) (m : meta) (id : string) (ctx : expr_context),
    In (a, Name m id ctx) (positions anc0 t) ->
    id ∈ aliases ->
    match a with Attribute _ _ _ _ :: _ => False | _ => True end ->
    In (Candidate (Name m id ctx) a id) (candidates aliases anc0 t).
Proof.
  induction t as [t IH] using AST_children_ind. intros anc0 a m id ctx Hin Hid Hpar.
  rewrite positions_unfold in Hin. rewrite candidates_unfold. apply in_or_app.
  destruct Hin as [Heq|Hin].
  - left. injection Heq as Ha Ht. subst a t. simpl.
    destruct anc0 as [|[] anc0]; try contradiction;
      rewrite (bool_decide_eq_true_2 _ Hid); left; reflexivity.
  - right. apply in_flat_map in Hin. destruct Hin as [d [Hd Hin]].
    apply in_flat_map. exists d. split; [exact Hd|].
    rewrite Forall_forall in IH.
    apply (IH d (proj2 (list_elem_of_In _ _) Hd)); assumption.
Qed.

(** C10 as stated fails: in [rebind_local_source] the alias [np] is the
    target of the assignment on line 3, inside [f]; no candidate occupies the
    span of that statement, and the analysis returns no block for it: the one
    block is that of [f], lines 2 to 3. *)
Lemma rebinding_in_function_reports_function :
  exists bs,
    extract_blocks (fun s => s) (fun s => s)
      (Extractor "numpy" rebind_local_source
         (sample_splitlines rebind_local_source) rebind_local_tree)
    = Ret bs
    /\ map span bs = [(2, 3)]
    /\ map symbol bs = ["np"]
    /\ ~ store_target_reported "numpy" rebind_local_tree bs.
Proof.
  eexists. split; [vm_compute; reflexivity|]. split; [reflexivity|].
  split; [reflexivity|].
  intros Hclaim.
  destruct (Hclaim rebind_local_assign (Meta 6 (Some 3) (Some 4) (Some 3)) "np" (3, 3))
    as [b [Hb [Hspan _]]].
  - find_in_list.
  - reflexivity.
  - left. reflexivity.
  - apply (bool_decide_unpack _). vm_compute. exact I.
  - reflexivity.
  - assert (Hcs : analysis_candidates "numpy" rebind_local_tree
                  = [Candidate rebind_local_target
                       [rebind_local_assign; rebind_local_def; rebind_local_tree] "np"])
      by (vm_compute; reflexivity).
    rewrite Hcs. intros c [<-|[]]. vm_compute. discriminate.
  - destruct Hb as [<-|[]]. discriminate Hspan.
Qed.

(** C10, amended. A bare identifier in store position is a reference like
    any other: when a name of the alias set is an assignment target (its
    parent is not an attribute access) and no earlier candidate occupies the
    span of its enclosing block, the analysis returns a block with that span
    whose symbol is the bare name.  When the assignment is a top-level
    statement of the module, the enclosing block is that statement. *)
Theorem rebinding_is_a_usage (dedent strip : string -> string)
    (self : _LibraryUsageExtractor) (a : list AST) (m : meta) (id : string)
    (k : Z * Z) :
  let target := Name m id Store in
  let r := Candidate target a id in
  distinct_ids (tree self) ->
  In (a, target) (positions [] (tree self)) ->
  id ∈ AliasCollector.collect (library self) (tree self) ->
  match a with Attribute _ _ _ _ :: _ => False | _ => True end ->
  ref_key r = Some k ->
  (forall c, precedes c r (analysis_candidates (library self) (tree self)) ->
     ref_key c <> Some k) ->
  (exists bs b,
     extract_blocks dedent strip self = Ret bs
     /\ In b bs /\ span b = k /\ symbol b = id)
  /\ (forall (stmt : AST) (m0 : meta) (body : list AST),
        a = [stmt; Generic m0 Mod body] -> is_stmt stmt = true ->
        block_key stmt = Some k).
Proof.
  intros target r Hd Hin Hid Hpar Hk Hfirst. split.
  - eexists. exists (snd (block_entry dedent strip (lines self) k r)).
    split; [apply extract_blocks_spec; exact Hd|].
    split; [|split; [destruct k; reflexivity | reflexivity]].
    assert (Hr : In r (analysis_candidates (library self) (tree self))).
    { apply name_is_candidate; assumption. }
    apply in_split in Hr. destruct Hr as [pre [post Hcs]].
    unfold blocks. apply in_map. rewrite Hcs. apply run_first; [exact Hk|].
    intros c Hc. apply Hfirst. apply in_split in Hc. destruct Hc as [l1 [l2 ->]].
    exists l1, l2, post. rewrite Hcs, <- app_assoc. reflexivity.
  - intros stmt m0 body -> Hstmt. rewrite <- Hk. unfold ref_key. simpl.
    destruct (is_def stmt); [reflexivity|]. rewrite Hstmt. reflexivity.
Qed.

Lemma rebinding_is_a_usage_witness :
  distinct_ids rebind_tree
  /\ In ([rebind_assign; rebind_tree], rebind_target) (positions [] rebind_tree)
  /\ block_key rebind_assign = Some (2, 2)
  /\ exists bs b,
       extract_blocks (fun s => s) (fun s => s)
         (Extractor "numpy" rebind_source (sample_splitlines rebind_source) rebind_tree)
       = Ret bs
       /\ In b bs /\ span b = (2, 2) /\ symbol b = "np".
Proof.
  assert (Hd : distinct_ids rebind_tree) by prove_distinct_ids.
  assert (Hin : In ([rebind_assign; rebind_tree], rebind_target) (positions [] rebind_tree))
    by find_in_list.
  split; [exact Hd|]. split; [exact Hin|]. split; [reflexivity|].
  apply (rebinding_is_a_usage (fun s => s) (fun s => s)
           (Extractor "numpy" rebind_source (sample_splitlines rebind_source) rebind_tree)
           [rebind_assign; rebind_tree] (Meta 4 (Some 2) (Some 0) (Some 2)) "np" (2, 2)).
  - exact Hd.
  - exact Hin.
  - apply (bool_decide_unpack _). vm_compute. exact I.
  - exact I.
  - reflexivity.
  - assert (Hcs : analysis_candidates "numpy" rebind_tree
                  = [Candidate rebind_target [rebind_assign; rebind_tree] "np"])
      by (vm_compute; reflexivity).
    simpl tree. simpl library. rewrite Hcs.
    intros c [l1 [l2 [l3 Heq]]].
    destruct l1 as [|x [|y l1]]; simpl in Heq; try discriminate.
    + destruct l2; discriminate.
Defined.

(** * Further properties of the analysis core *)

(** ** The parent index *)

Section IndexInFull.
Variable context_id : expr_context -> nat.

Abbreviation children := (child_nodes_in_full context_id).
Abbreviation nodes := (subnodes_in_full context_id).
Abbreviation entries := (links_in_full context_id).
Abbreviation count := node_count_in_full.

Lemma full_children_ind (P : AST -> Prop) :
  (forall n, Forall P (children n) -> P n) -> forall n, P n.
Proof.
  intros H. induction n as [n IH] using AST_children_ind.
  assert (Hctx : forall ctx, P (context_node context_id ctx))
    by (intros ctx; apply H; constructor).
  apply H. destruct n as [m id ctx|m value attr ctx| | |]; simpl in *;
    try exact IH.
  - constructor; [apply Hctx | constructor].
  - inversion IH as [|? ? Hv _]; subst.
    constructor; [exact Hv|]. constructor; [apply Hctx | constructor].
Qed.

Lemma nodes_unfold (n : AST) : nodes n = n :: flat_map nodes (children n).
Proof.
  destruct n; simpl;
    try rewrite (flat_map_alias_nodes _ (fun a => [alias_node a])) by reflexivity;
    rewrite ?flat_map_singletons, ?app_nil_r; reflexivity.
Qed.

Lemma entries_unfold (n : AST) :
  entries n = (map (fun c => (node_id c, n)) (children n)
               ++ flat_map entries (children n))%list.
Proof.
  destruct n; simpl;
    try rewrite (flat_map_alias_nodes _ (fun _ => [])) by reflexivity;
    rewrite ?flat_map_nil, ?app_nil_r; reflexivity.
Qed.

Lemma count_unfold (n : AST) :
  count n = S (count_all_in_full (children n)).
Proof.
  unfold count_all_in_full. destruct n as [| |m names|m md names lv|m cls fields]; simpl.
  - reflexivity.
  - rewrite Nat.add_1_r. reflexivity.
  - f_equal. induction names as [|a names IH]; simpl; [reflexivity | rewrite <- IH; reflexivity].
  - f_equal. induction names as [|a names IH]; simpl; [reflexivity | rewrite <- IH; reflexivity].
  - f_equal. induction fields as [|c fields IH]; simpl; [reflexivity | rewrite IH; reflexivity].
Qed.

(** Every entry is a child with a node it is a child of, and every child of
    every node has an entry written for it. *)
Lemma entries_inv (t : AST) :
  forall (k : nat) (p : AST),
    In (k, p) (entries t) ->
    In p (nodes t) /\ exists c, In c (children p) /\ node_id c = k.
Proof.
  induction t as [t IH] using full_children_ind. intros k p Hin.
  rewrite entries_unfold in Hin. rewrite nodes_unfold.
  apply in_app_or in Hin. destruct Hin as [Hin|Hin].
  - apply in_map_iff in Hin. destruct Hin as [c [Heq Hc]]. injection Heq as <- <-.
    split; [left; reflexivity|]. exists c. split; [exact Hc | reflexivity].
  - apply in_flat_map in Hin. destruct Hin as [d [Hd Hin]].
    rewrite Forall_forall in IH.
    destruct (IH d (proj2 (list_elem_of_In _ _) Hd) _ _ Hin) as [Hp Hc].
    split; [|exact Hc]. right. apply in_flat_map. exists d. split; assumption.
Qed.

Lemma entries_child (t p c : AST) :
  In p (nodes t) -> In c (children p) -> In (node_id c, p) (entries t).
Proof.
  induction t as [t IH] using full_children_ind. intros Hp Hc.
  rewrite nodes_unfold in Hp. rewrite entries_unfold. apply in_or_app.
  destruct Hp as [<-|Hp].
  - left. apply in_map_iff. exists c. split; [reflexivity | exact Hc].
  - right. apply in_flat_map in Hp. destruct Hp as [d [Hd Hp]].
    apply in_flat_map. exists d. split; [exact Hd|].
    rewrite Forall_forall in IH.
    apply (IH d (proj2 (list_elem_of_In _ _) Hd)); assumption.
Qed.

(** The entries written for the children of one node, on top of an index. *)
Lemma written_lookup (n : AST) (cs : list AST) (m : gmap nat AST) (k : nat) :
  (list_to_map (rev (map (fun c => (node_id c, n)) cs)) ∪ m) !! k
  = if bool_decide (k ∈ map node_id cs) then Some n else m !! k.
Proof.
  assert (Hmap : forall l : list (nat * AST),
            (forall e, In e l -> snd e = n) ->
            (list_to_map l : gmap nat AST) !! k
            = if bool_decide (k ∈ map fst l) then Some n else None).
  { induction l as [|[k' v] l IHl]; intros Hall; [reflexivity|].
    simpl. destruct (decide (k' = k)) as [->|Hne].
    - rewrite lookup_insert_eq.
      rewrite bool_decide_eq_true_2 by (apply elem_of_cons; left; reflexivity).
      f_equal. apply (Hall (k, v)). left. reflexivity.
    - rewrite lookup_insert_ne by exact Hne.
      rewrite IHl by (intros e He; apply Hall; right; exact He).
      destruct (bool_decide_reflect (k ∈ map fst l)) as [Hin|Hnin].
      + rewrite bool_decide_eq_true_2 by (apply elem_of_cons; right; exact Hin).
        reflexivity.
      + rewrite bool_decide_eq_false_2; [reflexivity|].
        intros H. apply elem_of_cons in H. destruct H as [Heq|Hin];
          [congruence | contradiction]. }
  assert (Hkeys : k ∈ map fst (rev (map (fun c => (node_id c, n)) cs))
                  <-> k ∈ map node_id cs).
  { rewrite !list_elem_of_In, map_rev, <- in_rev, map_map. simpl. reflexivity. }
  rewrite lookup_union, Hmap.
  - destruct (bool_decide_reflect (k ∈ map node_id cs)) as [Hin|Hnin].
    + rewrite bool_decide_eq_true_2 by (apply Hkeys; exact Hin).
      destruct (m !! k); reflexivity.
    + rewrite bool_decide_eq_false_2 by (rewrite Hkeys; exact Hnin).
      destruct (m !! k); reflexivity.
  - intros e He. apply in_rev in He. apply in_map_iff in He.
    destruct He as [c [<- _]]. reflexivity.
Qed.

(** The loop ends within a fuel of one unit per node; a key that an entry
    is written for ends with the node of one of the entries written for it,
    and every other key keeps what it had. *)
Lemma populate_in_full_spec (fuel : nat) :
  forall (stack : list AST) (m : gmap nat AST),
    (count_all_in_full stack <= fuel)%nat ->
    exists m',
      populate_loop_in_full context_id fuel stack m = Ret m'
      /\ (forall k, In k (map fst (flat_map entries stack)) ->
            exists p, m' !! k = Some p /\ In (k, p) (flat_map entries stack))
      /\ (forall k, ~ In k (map fst (flat_map entries stack)) -> m' !! k = m !! k).
Proof.
  induction fuel as [|fuel IH]; intros stack m Hfuel.
  - destruct stack as [|n stack _] using rev_ind.
    + exists m. split; [reflexivity|]. split; [intros k []|reflexivity].
    + unfold count_all_in_full in Hfuel. rewrite map_app, list_sum_app in Hfuel.
      simpl in Hfuel. rewrite (count_unfold n) in Hfuel. lia.
  - destruct stack as [|n stack _] using rev_ind.
    + exists m. split; [reflexivity|]. split; [intros k []|reflexivity].
    + simpl. rewrite pop_snoc, link_children_spec.
      set (m1 := list_to_map (rev (map (fun c => (node_id c, n)) (children n))) ∪ m).
      destruct (IH (stack ++ children n)%list m1) as [m' [Hrun [Hin Hout]]].
      { unfold count_all_in_full in *. rewrite map_app, list_sum_app in *.
        simpl in Hfuel. rewrite (count_unfold n) in Hfuel.
        unfold count_all_in_full in Hfuel. lia. }
      exists m'. split; [exact Hrun|].
      assert (Hsplit : forall e,
                In e (flat_map entries (stack ++ [n]))
                <-> In e (flat_map entries (stack ++ children n))
                    \/ In e (map (fun c => (node_id c, n)) (children n))).
      { intros e. rewrite !flat_map_app. simpl. rewrite app_nil_r, entries_unfold.
        rewrite !in_app_iff. tauto. }
      assert (Hkeys : forall k,
                In k (map fst (flat_map entries (stack ++ [n])))
                <-> In k (map fst (flat_map entries (stack ++ children n)))
                    \/ In k (map node_id (children n))).
      { intros k. rewrite !in_map_iff. split.
        - intros [e [<- He]]. apply Hsplit in He. destruct He as [He|He].
          + left. exists e. split; [reflexivity | exact He].
          + right. apply in_map_iff in He. destruct He as [c [<- Hc]].
            exists c. split; [reflexivity | exact Hc].
        - intros [[e [<- He]]|[c [<- Hc]]].
          + exists e. split; [reflexivity|]. apply Hsplit. left. exact He.
          + exists (node_id c, n). split; [reflexivity|]. apply Hsplit. right.
            apply in_map_iff. exists c. split; [reflexivity | exact Hc]. }
      split.
      * intros k Hk.
        destruct (in_dec Nat.eq_dec k
                    (map fst (flat_map entries (stack ++ children n)))) as [Hdeep|Hnot].
        -- destruct (Hin k Hdeep) as [p [Hp Hlink]].
           exists p. split; [exact Hp|]. apply Hsplit. left. exact Hlink.
        -- apply Hkeys in Hk. destruct Hk as [Hk|Hk]; [contradiction|].
           exists n. split.
           ++ rewrite (Hout k Hnot). unfold m1. rewrite written_lookup.
              rewrite bool_decide_eq_true_2 by (apply list_elem_of_In; exact Hk).
              reflexivity.
           ++ apply Hsplit. right. apply in_map_iff in Hk.
              destruct Hk as [c [<- Hc]]. apply in_map_iff.
              exists c. split; [reflexivity | exact Hc].
      * intros k Hk.
        rewrite Hout by (intros H; apply Hk, Hkeys; left; exact H).
        unfold m1. rewrite written_lookup.
        rewrite bool_decide_eq_false_2; [reflexivity|].
        intros H. apply Hk, Hkeys. right. apply list_elem_of_In. exact H.
Qed.

(** X1. [_populate_parent_links], run on the tree with its shared context
    objects, ends on every tree, whatever the identities.  In the index it
    leaves, every entry maps the identity of a child to a node of the tree
    that has a child of that identity; every child of every node has an
    entry; a child whose identity no child of another node shares maps to its
    parent, while a shared object maps to one of the nodes that have it; and
    the root has no entry when no child has its identity. *)
Theorem parent_index_in_full (tree : AST) :
  exists parent,
    _populate_parent_links_in_full context_id tree = Ret parent
    /\ (forall k p, parent !! k = Some p ->
          In p (nodes tree) /\ exists c, In c (children p) /\ node_id c = k)
    /\ (forall p c, In p (nodes tree) -> In c (children p) ->
          (exists p', parent !! node_id c = Some p')
          /\ ((forall p' c', In p' (nodes tree) -> In c' (children p') ->
                 node_id c' = node_id c -> p' = p) ->
              parent !! node_id c = Some p))
    /\ ((forall p c, In p (nodes tree) -> In c (children p) ->
           node_id c <> node_id tree) ->
        parent !! node_id tree = None).
Proof.
  destruct (populate_in_full_spec (count tree) [tree] ∅) as [parent [Hrun [Hin Hout]]].
  { unfold count_all_in_full. simpl. lia. }
  simpl in Hin, Hout. rewrite app_nil_r in Hin, Hout.
  assert (Hentry : forall k p, parent !! k = Some p -> In (k, p) (entries tree)).
  { intros k p Hk.
    destruct (in_dec Nat.eq_dec k (map fst (entries tree))) as [Hkey|Hnot].
    - destruct (Hin k Hkey) as [p0 [Hp0 Hlink]]. congruence.
    - rewrite (Hout k Hnot), lookup_empty in Hk. discriminate. }
  exists parent. split; [exact Hrun|]. split; [|split].
  - intros k p Hk. apply entries_inv. apply Hentry. exact Hk.
  - intros p c Hp Hc.
    assert (Hkey : In (node_id c) (map fst (entries tree))).
    { apply in_map_iff. exists (node_id c, p). split; [reflexivity|].
      apply entries_child; assumption. }
    destruct (Hin _ Hkey) as [p0 [Hp0 Hlink]]. split; [exists p0; exact Hp0|].
    intros Honly. rewrite Hp0. f_equal.
    destruct (entries_inv _ _ _ Hlink) as [Hnode [c0 [Hc0 Hid]]].
    apply (Honly p0 c0 Hnode Hc0 Hid).
  - intros Hroot.
    destruct (parent !! node_id tree) as [p|] eqn:Hk; [|reflexivity].
    destruct (entries_inv _ _ _ (Hentry _ _ Hk)) as [Hnode [c [Hc Hid]]].
    exfalso. apply (Hroot p c Hnode Hc Hid).
Qed.
End IndexInFull.

(** In [np = 5] the name [np] has the shared [Store] object as child; with
    the identity 101 for it, the index holds the name as its parent, the
    assignment as parent of the name, and no entry for the module. *)
Lemma parent_index_in_full_witness :
  exists parent,
    _populate_parent_links_in_full (fun ctx => match ctx with
                                               | Load => 100 | Store => 101 | Del => 102
                                               end)%nat rebind_tree = Ret parent
    /\ parent !! 101%nat = Some rebind_target
    /\ parent !! node_id rebind_target = Some rebind_assign
    /\ parent !! node_id rebind_tree = None.
Proof.
  set (cid := (fun ctx => match ctx with Load => 100 | Store => 101 | Del => 102 end)%nat).
  destruct (parent_index_in_full cid rebind_tree) as [parent [Hrun [Hentry [Hchild Hroot]]]].
  exists parent. split; [exact Hrun|]. split; [|split].
  - apply (proj2 (Hchild rebind_target (context_node cid Store)
                    ltac:(find_in_list) ltac:(left; reflexivity))).
    intros p' c' Hp' Hc' Hid. simpl in Hp'.
    repeat (destruct Hp' as [<-|Hp']); try contradiction; simpl in Hc';
      repeat (destruct Hc' as [<-|Hc']); try contradiction;
      try discriminate Hid; reflexivity.
  - apply (proj2 (Hchild rebind_assign rebind_target
                    ltac:(find_in_list) ltac:(left; reflexivity))).
    intros p' c' Hp' Hc' Hid. simpl in Hp'.
    repeat (destruct Hp' as [<-|Hp']); try contradiction; simpl in Hc';
      repeat (destruct Hc' as [<-|Hc']); try contradiction;
      try discriminate Hid; reflexivity.
  - apply Hroot. intros p c Hp Hc Hid. simpl in Hp.
    repeat (destruct Hp as [<-|Hp]); try contradiction; simpl in Hc;
      repeat (destruct Hc as [<-|Hc]); try contradiction; discriminate Hid.
Defined.

(** ** The enclosing block in general *)

(** X2. For a node of a tree of distinct objects, [_enclosing_block] ends;
    it returns the innermost definition (function, asynchronous function or
    class) among the node and its ancestors when there is one, and otherwise
    the outermost statement among them, or nothing when there is none.  What
    it returns is always the node or one of its ancestors, and always a
    definition or a statement. *)
Theorem enclosing_block_result (t : AST) (a : list AST) (x : AST)
    (parent : gmap nat AST) :
  distinct_ids t ->
  _populate_parent_links t = Ret parent ->
  In (a, x) (positions [] t) ->
  exists r,
    UsageCollector._enclosing_block parent x = Ret r
    /\ match List.find is_def (x :: a) with
       | Some d => r = Some d
       | None => r = outermost_stmt (x :: a)
       end
    /\ (forall c, r = Some c ->
          In c (x :: a) /\ (is_def c = true \/ is_stmt c = true)).
Proof.
  intros Hd Hpop Hin. rewrite (populate_parent_links_spec t Hd) in Hpop.
  injection Hpop as <-.
  exists (walk (x :: a) None).
  split; [apply enclosing_block_in_tree; assumption|]. split.
  - destruct (List.find is_def (x :: a)) as [d|] eqn:Hf.
    + apply walk_first_def. exact Hf.
    + rewrite (walk_outermost_stmt _ None Hf).
      destruct (outermost_stmt (x :: a)); reflexivity.
  - intros c Hc. destruct (walk_result _ _ _ Hc) as [H|H]; [exact H | discriminate].
Qed.

Lemma enclosing_block_result_witness :
  exists parent r,
    _populate_parent_links nested_def_tree = Ret parent
    /\ In ([nested_def_tree], List.nth 1 (iter_child_nodes nested_def_tree) nested_def_tree)
         (positions [] nested_def_tree)
    /\ UsageCollector._enclosing_block parent
         (List.nth 1 (iter_child_nodes nested_def_tree) nested_def_tree) = Ret r
    /\ r = Some (List.nth 1 (iter_child_nodes nested_def_tree) nested_def_tree).
Proof.
  assert (Hd : distinct_ids nested_def_tree) by prove_distinct_ids.
  pose proof (populate_parent_links_spec nested_def_tree Hd) as Hp.
  set (parent := list_to_map (links nested_def_tree) : gmap nat AST) in Hp.
  assert (Hin : In ([nested_def_tree],
                    List.nth 1 (iter_child_nodes nested_def_tree) nested_def_tree)
                  (positions [] nested_def_tree)) by find_in_list.
  destruct (enclosing_block_result nested_def_tree _ _ parent Hd Hp Hin)
    as [r [Hr [Hfind _]]].
  exists parent, r. repeat split; try assumption.
Defined.

(** ** The match rule and plain imports *)

Lemma first_split_cons (c : ascii) (s : string) :
  PyStr.first (PyStr.split dot (String c s))
  = if Ascii.eqb c dot then EmptyString
    else String c (PyStr.first (PyStr.split dot s)).
Proof.
  simpl. destruct (Ascii.eqb c dot); [reflexivity|].
  pose proof (split_nonempty dot s) as Hs.
  destruct (PyStr.split dot s); [congruence | reflexivity].
Qed.

Lemma first_split_prefix (L rest : string) :
  PyStr.first (PyStr.split dot (L ++ String dot rest)%string)
  = PyStr.first (PyStr.split dot L).
Proof.
  induction L as [|c L IH].
  - change (EmptyString ++ String dot rest)%string with (String dot rest).
    rewrite first_split_cons. reflexivity.
  - rewrite append_cons, !first_split_cons, IH. reflexivity.
Qed.

(** A module path that matches has the root segment of the library as its
    first segment. *)
Lemma matches_first_segment (L P : string) :
  AliasCollector._matches_library L P = true ->
  PyStr.first (PyStr.split dot P) = AliasCollector.base_root L.
Proof.
  unfold AliasCollector._matches_library, AliasCollector.base_root.
  rewrite !orb_true_iff, !String.eqb_eq, startswith_spec.
  intros [[->|[rest ->]]|H]; [reflexivity| |exact H].
  rewrite <- append_assoc. apply first_split_prefix.
Qed.

(** X3. The three clauses of [_matches_library] come to one: a module path
    matches the library exactly when the two have the same first dotted
    segment; equality with the library and extension of the library by a
    dotted suffix are both cases of it. *)
Theorem matches_library_is_root_equality (L P : string) :
  AliasCollector._matches_library L P
  = String.eqb (PyStr.first (PyStr.split dot P)) (AliasCollector.base_root L).
Proof.
  destruct (AliasCollector._matches_library L P) eqn:Hm.
  - apply matches_first_segment in Hm. rewrite Hm, String.eqb_refl. reflexivity.
  - unfold AliasCollector._matches_library in Hm.
    apply orb_false_iff in Hm. destruct Hm as [_ Hm].
    symmetry. exact Hm.
Qed.

(** X4. A direct import without [as] clauses can add one name only to the
    alias set, the root segment of the library, and adds it exactly when
    one of the imported module paths matches. *)
Theorem plain_import_binds_root (L : string) (names : list alias)
    (acc : gset string) (x : string) :
  (forall a, In a names -> alias_asname a = None) ->
  x ∈ AliasCollector.visit_Import L names acc
  <-> x ∈ acc
      \/ (x = AliasCollector.base_root L
          /\ exists a, In a names
               /\ AliasCollector._matches_library L (alias_name a) = true).
Proof.
  intros Hplain. rewrite visit_Import_spec. simpl. split.
  - intros [H|[a [Ha [Hm Hx]]]]; [left; exact H|]. right.
    apply list_elem_of_In in Ha. rewrite (Hplain a Ha) in Hx. split.
    + rewrite Hx. apply matches_first_segment. exact Hm.
    + exists a. split; assumption.
  - intros [H|[Hx [a [Ha Hm]]]]; [left; exact H|]. right.
    exists a. split; [apply list_elem_of_In; exact Ha|]. split; [exact Hm|].
    rewrite (Hplain a Ha), Hx. symmetry. apply matches_first_segment. exact Hm.
Qed.

Lemma plain_import_binds_root_witness :
  "numpy" ∈ AliasCollector.visit_Import "numpy.fft"
              [Alias (Meta 2 (Some 1) (Some 7) (Some 1)) "numpy.linalg" None] ∅.
Proof.
  apply (plain_import_binds_root "numpy.fft"
           [Alias (Meta 2 (Some 1) (Some 7) (Some 1)) "numpy.linalg" None] ∅ "numpy").
  - intros a [<-|[]]. reflexivity.
  - right. split; [reflexivity|]. eexists. split; [left; reflexivity | reflexivity].
Defined.

(** ** What the blocks report *)

Lemma candidate_rooted (aliases : gset string) (t : AST) :
  forall (anc0 : list AST) (c : candidate),
    In c (candidates aliases anc0 t) ->
    exists base segments,
      base ∈ aliases
      /\ dotted_path (ref_node c) = Some (base :: segments)
      /\ ref_symbol c = PyStr.join "." (base :: segments).
Proof.
  induction t as [t IH] using AST_children_ind. intros anc0 c Hin.
  rewrite candidates_unfold in Hin. apply in_app_or in Hin. destruct Hin as [Hin|Hin].
  - destruct t as [m id ctx|m value attr ctx| | |]; unfold own_candidate in Hin;
      try contradiction.
    + destruct (bool_decide_reflect (id ∈ aliases)) as [Hid|Hid];
        destruct anc0 as [|[] anc0]; simpl in Hin; try contradiction;
        destruct Hin as [<-|[]]; exists id, []; repeat split; assumption.
    + destruct (dotted_path (Attribute m value attr ctx)) as [[|base segments]|] eqn:Hv;
        try contradiction.
      destruct (bool_decide_reflect (base ∈ aliases)) as [Hb|Hb]; [|contradiction].
      destruct Hin as [<-|[]]. exists base, segments.
      split; [exact Hb|]. split; [exact Hv | reflexivity].
  - apply in_flat_map in Hin. destruct Hin as [d [Hd Hin]].
    rewrite Forall_forall in IH.
    apply (IH d (proj2 (list_elem_of_In _ _) Hd) _ _ Hin).
Qed.

(** X5. On a tree of distinct objects every block the extractor returns
    carries a symbol rooted at an alias: an identifier of the alias set,
    followed by zero or more attribute names, joined with dots. *)
Theorem symbols_are_rooted_at_aliases (dedent strip : string -> string)
    (self : _LibraryUsageExtractor) :
  distinct_ids (tree self) ->
  exists bs,
    extract_blocks dedent strip self = Ret bs
    /\ forall b, In b bs ->
         exists base segments,
           base ∈ AliasCollector.collect (library self) (tree self)
           /\ symbol b = PyStr.join "." (base :: segments).
Proof.
  intros Hd. eexists. split; [apply extract_blocks_spec; exact Hd|].
  intros b Hb. apply blocks_In in Hb. destruct Hb as [k Hb].
  destruct (run_origin dedent strip (lines self) _ [] _ Hb)
    as [[]|[pre [c [post [Hcs [_ [_ [_ He]]]]]]]].
  simpl in He. injection He as ->.
  destruct (candidate_rooted (AliasCollector.collect (library self) (tree self))
              (tree self) [] c) as [base [segments [Hbase [_ Hsym]]]].
  { fold (analysis_candidates (library self) (tree self)). rewrite Hcs.
    apply in_or_app. right. left. reflexivity. }
  exists base, segments. split; assumption.
Qed.

Lemma symbols_are_rooted_at_aliases_witness :
  distinct_ids attr_tree
  /\ exists bs,
       extract_blocks (fun s => s) (fun s => s)
         (Extractor "pkg" attr_source (sample_splitlines attr_source) attr_tree)
       = Ret bs
       /\ forall b, In b bs ->
            exists base segments,
              base ∈ AliasCollector.collect "pkg" attr_tree
              /\ symbol b = PyStr.join "." (base :: segments).
Proof.
  assert (Hd : distinct_ids attr_tree) by prove_distinct_ids.
  split; [exact Hd|].
  apply (symbols_are_rooted_at_aliases (fun s => s) (fun s => s)
           (Extractor "pkg" attr_source (sample_splitlines attr_source) attr_tree) Hd).
Defined.

(** X6. No reference is lost: on a tree of distinct objects, for every
    candidate reference whose enclosing block has a start line, the extractor
    returns a block with the span of that enclosing block. *)
Theorem every_candidate_is_covered (dedent strip : string -> string)
    (self : _LibraryUsageExtractor) :
  distinct_ids (tree self) ->
  exists bs,
    extract_blocks dedent strip self = Ret bs
    /\ forall c k,
         In c (analysis_candidates (library self) (tree self)) ->
         ref_key c = Some k ->
         exists b, In b bs /\ span b = k.
Proof.
  intros Hd. eexists. split; [apply extract_blocks_spec; exact Hd|].
  intros c k Hc Hk.
  pose proof (run_has_key dedent strip (lines self) _ [] c k Hc Hk) as Hin.
  rewrite <- run_spans in Hin. apply in_map_iff in Hin.
  destruct Hin as [b [Hspan Hb]]. exists b. split; assumption.
Qed.

Lemma every_candidate_is_covered_witness :
  distinct_ids cond_tree
  /\ exists bs,
       extract_blocks (fun s => s) (fun s => s)
         (Extractor "numpy" cond_source (sample_splitlines cond_source) cond_tree)
       = Ret bs
       /\ exists b, In b bs /\ span b = (2, 3).
Proof.
  assert (Hd : distinct_ids cond_tree) by prove_distinct_ids.
  split; [exact Hd|].
  destruct (every_candidate_is_covered (fun s => s) (fun s => s)
              (Extractor "numpy" cond_source (sample_splitlines cond_source) cond_tree) Hd)
    as [bs [Hbs Hcov]].
  exists bs. split; [exact Hbs|].
  apply (Hcov (Candidate cond_body [cond_ifexp; cond_return; cond_def; cond_tree] "np.a")).
  - unfold analysis_candidates. simpl library. simpl tree.
    assert (Hal : AliasCollector.collect "numpy" cond_tree = {[ "np" ]})
      by (vm_compute; reflexivity).
    rewrite Hal. find_in_list.
  - reflexivity.
Defined.

(** X7. The base of an attribute access is not reported a second time: in a
    tree of distinct objects, [visit_Name] on a name whose parent is an
    attribute access leaves the dictionary as it is, alias or not. *)
Theorem attribute_base_is_not_recorded (dedent strip : string -> string)
    (lines : list string) (aliases : gset string) (t : AST)
    (parent : gmap nat AST) (a : list AST) (m ma : meta) (id attr : string)
    (ctx ctxa : expr_context) (value : AST) (bm : blocks_map) :
  distinct_ids t ->
  _populate_parent_links t = Ret parent ->
  In (Attribute ma value attr ctxa :: a, Name m id ctx) (positions [] t) ->
  UsageCollector._part_of_attribute parent (Name m id ctx) = true
  /\ UsageCollector.visit_Name dedent strip lines aliases parent (Name m id ctx) id bm
     = Ret bm.
Proof.
  intros Hd Hpop Hin. rewrite (populate_parent_links_spec t Hd) in Hpop.
  injection Hpop as <-.
  assert (Hpart : UsageCollector._part_of_attribute (list_to_map (links t)) (Name m id ctx)
                  = true).
  { rewrite (part_of_attribute_spec _ (Attribute ma value attr ctxa :: a)).
    - reflexivity.
    - apply positions_chain; assumption.
    - destruct (positions_inv _ _ _ _ Hin) as [[Heq _]|[p' [a' [Heq [_ Hx]]]]];
        [discriminate|]. injection Heq as <- <-. exact Hx. }
  split; [exact Hpart|].
  unfold UsageCollector.visit_Name. rewrite Hpart, andb_false_r. reflexivity.
Qed.

Lemma attribute_base_is_not_recorded_witness :
  exists parent,
    _populate_parent_links nested_stmt_tree = Ret parent
    /\ UsageCollector.visit_Name (fun s => s) (fun s => s) [] {[ "np" ]} parent
         (Name (Meta 9 (Some 3) (Some 8) (Some 3)) "np" Load) "np" []
       = Ret [].
Proof.
  assert (Hd : distinct_ids nested_stmt_tree) by prove_distinct_ids.
  pose proof (populate_parent_links_spec nested_stmt_tree Hd) as Hp.
  eexists. split; [exact Hp|].
  apply (attribute_base_is_not_recorded (fun s => s) (fun s => s) [] {[ "np" ]}
           nested_stmt_tree _
           [nested_stmt_call; nested_stmt_assign; nested_stmt_if; nested_stmt_tree]
           (Meta 9 (Some 3) (Some 8) (Some 3)) (Meta 8 (Some 3) (Some 8) (Some 3))
           "np" "zeros" Load Load
           (Name (Meta 9 (Some 3) (Some 8) (Some 3)) "np" Load) [] Hd Hp).
  find_in_list.
Defined.

(** ** The lines of a snippet *)

(** X8. The lines cut out for a block are the lines of its span: for a span
    inside the file, [lines[start - 1 : end]] has [end - start + 1] lines
    and its line number [k] (counted from 0) is line [start + k] of the file,
    lines being counted from 1. *)
Theorem snippet_lines_are_the_span (lines : list string) (start end_ : Z) :
  1 <= start -> start <= end_ -> end_ <= Z.of_nat (List.length lines) ->
  Z.of_nat (List.length (PyStr.slice lines (start - 1) end_)) = end_ - start + 1
  /\ forall k : nat,
       Z.of_nat k <= end_ - start ->
       PyStr.slice lines (start - 1) end_ !! k
       = lines !! (Z.to_nat (start - 1) + k)%nat.
Proof.
  intros H1 H2 H3. unfold PyStr.slice, PyStr.slice_index.
  destruct (Z.ltb_spec (start - 1) 0) as [Hneg|_]; [lia|].
  destruct (Z.ltb_spec end_ 0) as [Hneg|_]; [lia|].
  rewrite (Z.min_l (start - 1)), (Z.min_l end_) by lia.
  split.
  - rewrite length_take, length_drop. lia.
  - intros k Hk. rewrite lookup_take_lt by lia. apply lookup_drop.
Qed.

Lemma snippet_lines_are_the_span_witness :
  PyStr.slice (sample_splitlines attr_source) (2 - 1) 3 !! 1%nat
  = sample_splitlines attr_source !! 2%nat.
Proof.
  apply (proj2 (snippet_lines_are_the_span (sample_splitlines attr_source) 2 3
                  ltac:(lia) ltac:(lia) ltac:(vm_compute; discriminate)) 1%nat).
  lia.
Defined.

(** X9. A span that reaches beyond the file is cut at the last line, and a
    span that starts beyond it gives no line at all; in both cases nothing
    fails. *)
Theorem snippet_lines_out_of_range (lines : list string) (start end_ : Z) :
  1 <= start -> Z.of_nat (List.length lines) <= end_ ->
  PyStr.slice lines (start - 1) end_ = drop (Z.to_nat (start - 1)) lines
  /\ (Z.of_nat (List.length lines) < start -> PyStr.slice lines (start - 1) end_ = []).
Proof.
  intros H1 H2. unfold PyStr.slice, PyStr.slice_index.
  destruct (Z.ltb_spec (start - 1) 0) as [Hneg|_]; [lia|].
  destruct (Z.ltb_spec end_ 0) as [Hneg|_]; [lia|].
  rewrite (Z.min_r end_) by lia.
  assert (Hall : forall n, (List.length lines - n <= Z.to_nat (Z.of_nat (List.length lines)
                    - Z.min (start - 1) (Z.of_nat (List.length lines))))%nat ->
                 n = Z.to_nat (Z.min (start - 1) (Z.of_nat (List.length lines))) ->
                 take (Z.to_nat (Z.of_nat (List.length lines)
                    - Z.min (start - 1) (Z.of_nat (List.length lines)))) (drop n lines)
                 = drop n lines).
  { intros n Hn _. apply take_ge. rewrite length_drop. exact Hn. }
  split.
  - rewrite Hall by lia.
    destruct (Z.le_gt_cases (start - 1) (Z.of_nat (List.length lines))) as [Hle|Hgt].
    + rewrite Z.min_l by lia. reflexivity.
    + rewrite Z.min_r by lia. rewrite !drop_ge by lia. reflexivity.
  - intros Hbeyond. rewrite Hall by lia. apply drop_ge. lia.
Qed.

Lemma snippet_lines_out_of_range_witness :
  PyStr.slice (sample_splitlines attr_source) (5 - 1) 9 = [].
Proof.
  apply (proj2 (snippet_lines_out_of_range (sample_splitlines attr_source) 5 9
                  ltac:(lia) ltac:(vm_compute; discriminate))).
  vm_compute. reflexivity.
Defined.

(** ** Symbols and their segments *)

Lemma split_dot_free (x : string) :
  dot_free x = true -> PyStr.split dot x = [x].
Proof.
  induction x as [|c x IH]; simpl; [reflexivity|].
  intros H. apply andb_true_iff in H. destruct H as [Hc Hx].
  apply negb_true_iff in Hc. rewrite Hc, (IH Hx). reflexivity.
Qed.

Lemma split_segment_dot (x y : string) :
  dot_free x = true ->
  PyStr.split dot (x ++ String dot y)%string = x :: PyStr.split dot y.
Proof.
  induction x as [|c x IH]; intros H.
  - change (EmptyString ++ String dot y)%string with (String dot y).
    reflexivity.
  - simpl in H. apply andb_true_iff in H. destruct H as [Hc Hx].
    apply negb_true_iff in Hc.
    rewrite append_cons. simpl. rewrite Hc, (IH Hx). reflexivity.
Qed.

Lemma split_join (l : list string) :
  l <> [] -> forallb dot_free l = true ->
  PyStr.split dot (PyStr.join "." l) = l.
Proof.
  induction l as [|x l IH]; intros Hne Hall; [congruence|].
  simpl in Hall. apply andb_true_iff in Hall. destruct Hall as [Hx Hl].
  destruct l as [|y l].
  - simpl. apply split_dot_free. exact Hx.
  - change (PyStr.join "." (x :: y :: l))
      with (x ++ String dot (PyStr.join "." (y :: l)))%string.
    rewrite (split_segment_dot _ _ Hx), IH; [reflexivity | discriminate | exact Hl].
Qed.

(** X10. The symbol of an attribute access can be taken apart again: when
    the base identifier and the attribute names hold no dot, splitting
    [_attribute_full_name] at the dots gives back the base identifier followed
    by the attribute names, outermost last. *)
Theorem full_name_splits_into_path (n : AST) (path : list string) :
  dotted_path n = Some path ->
  forallb dot_free path = true ->
  PyStr.split dot (UsageCollector._attribute_full_name n) = path.
Proof.
  intros Hpath Hfree. rewrite (full_name_path n path Hpath).
  apply split_join; [|exact Hfree].
  pose proof (attribute_root_path n) as Hroot. rewrite Hpath in Hroot.
  destruct Hroot as [m [id [ctx [rest [_ ->]]]]]. discriminate.
Qed.

Lemma full_name_splits_into_path_witness :
  PyStr.split dot (UsageCollector._attribute_full_name attr_ref) = ["pkg"; "sub"; "fn"].
Proof.
  apply (full_name_splits_into_path attr_ref ["pkg"; "sub"; "fn"]); reflexivity.
Defined.

(** ** The loop over the search hits *)

Section LoopFacts.
Variable ast_parse : string -> outcome AST.
Variable splitlines : string -> list string.
Variable dedent strip : string -> string.
Variable _download_source : string -> outcome string.

Abbreviation analyze := (analyze_items ast_parse splitlines dedent strip _download_source).
Abbreviation analyze_one := (analyze_source ast_parse splitlines dedent strip).

(** X11. The loop of [analyze_library] handles the hits one after the other:
    running it on a list of hits followed by a second list is running it on
    the first list and then, on the results so far, on the second; and the
    results it starts from stay in front of what it returns. *)
Theorem analyze_items_app (library : string) (items1 items2 : list item)
    (results : list CodeBlock) :
  analyze library (items1 ++ items2) results
  = (analyze library items1 results ≫= analyze library items2)
  /\ forall out, analyze library items1 results = Ret out ->
       exists added, out = (results ++ added)%list.
Proof.
  split.
  - revert results. induction items1 as [|it items1 IH]; intros results; [reflexivity|].
    simpl. destruct (_download_source (item_url it)) as [src|e|]; try reflexivity;
      [|apply IH].
    destruct (analyze_one library src) as [bs|e|]; try reflexivity.
    cbn [mbind outcome_bind]. apply IH.
  - revert results. induction items1 as [|it items1 IH]; intros results out Hout.
    + injection Hout as <-. exists []. rewrite app_nil_r. reflexivity.
    + simpl in Hout. destruct (_download_source (item_url it)) as [src|e|];
        [|apply IH; exact Hout|discriminate].
      destruct (analyze_one library src) as [bs|e|]; try discriminate.
      cbn [mbind outcome_bind] in Hout.
      destruct (IH _ _ Hout) as [added ->].
      exists (map (to_code_block it) bs ++ added)%list.
      rewrite app_assoc. reflexivity.
Qed.

(** X12. What one file can do to the whole analysis: a download that raises
    only skips the file, while a parser error other than a syntax error on a
    downloaded file ends the analysis with that error, the results of the
    earlier files included. *)
Theorem one_file_failures (library : string) (it : item) (items : list item)
    (results : list CodeBlock) :
  (forall e, _download_source (item_url it) = Raise e ->
     analyze library (it :: items) results = analyze library items results)
  /\ (forall source e,
        _download_source (item_url it) = Ret source ->
        ast_parse source = Raise e -> e <> SyntaxError ->
        analyze library (it :: items) results = Raise e).
Proof.
  split.
  - intros e He. simpl. rewrite He. reflexivity.
  - intros source e Hdl Hparse Hne. simpl. rewrite Hdl.
    unfold analyze_source, init. rewrite Hparse. cbn [mbind outcome_bind].
    destruct e; [congruence | reflexivity].
Qed.

(** X13. Every block the loop returns comes from one of the hits: it is a
    block of the analysis of the text downloaded for that hit, under the
    repository name, path and address of that hit. *)
Theorem results_come_from_hits (library : string) (items : list item) :
  forall (results out : list CodeBlock) (cb : CodeBlock),
    analyze library items results = Ret out ->
    In cb out ->
    In cb results
    \/ exists it source bs b,
         In it items
         /\ _download_source (item_url it) = Ret source
         /\ analyze_one library source = Ret bs
         /\ In b bs
         /\ cb = to_code_block it b.
Proof.
  induction items as [|it items IH]; intros results out cb Hout Hcb.
  - injection Hout as <-. left. exact Hcb.
  - simpl in Hout. destruct (_download_source (item_url it)) as [src|e|] eqn:Hdl;
      [| |discriminate].
    + destruct (analyze_one library src) as [bs|e|] eqn:Hbs; try discriminate.
      cbn [mbind outcome_bind] in Hout.
      destruct (IH _ _ _ Hout Hcb) as [Hin|[it' [s' [bs' [b' [Hit H]]]]]].
      * apply in_app_or in Hin. destruct Hin as [Hin|Hin]; [left; exact Hin|].
        apply in_map_iff in Hin. destruct Hin as [b [<- Hb]].
        right. exists it, src, bs, b. repeat split; try assumption. left. reflexivity.
      * right. exists it', s', bs', b'. split; [right; exact Hit | exact H].
    + destruct (IH _ _ _ Hout Hcb) as [Hin|[it' [s' [bs' [b' [Hit H]]]]]].
      * left. exact Hin.
      * right. exists it', s', bs', b'. split; [right; exact Hit | exact H].
Qed.
End LoopFacts.

Lemma one_file_failures_witness :
  analyze_items (sample_parse 0) sample_splitlines (fun s => s) (fun s => s)
    sample_download "pkg" [Item "gone" "r" "p" "h"; Item "ok" "r" "p" "h"] []
  = analyze_items (sample_parse 0) sample_splitlines (fun s => s) (fun s => s)
      sample_download "pkg" [Item "ok" "r" "p" "h"] [].
Proof.
  apply (proj1 (one_file_failures (sample_parse 0) sample_splitlines
                  (fun s => s) (fun s => s) sample_download "pkg"
                  (Item "gone" "r" "p" "h") [Item "ok" "r" "p" "h"] [])
           (OtherError "HTTPStatusError")).
  reflexivity.
Defined.

Lemma results_come_from_hits_witness :
  exists out cb,
    analyze_items (sample_parse 0) sample_splitlines (fun s => s) (fun s => s)
      sample_download "pkg" [Item "ok" "r" "p" "h"] [] = Ret out
    /\ In cb out
    /\ cb_repository cb = "r".
Proof.
  assert (Hout : analyze_items (sample_parse 0) sample_splitlines (fun s => s) (fun s => s)
                   sample_download "pkg" [Item "ok" "r" "p" "h"] []
                 = Ret [MkCodeBlock "r" "p" "h" 2 3 "pkg.sub.fn" "def f():
    pkg.sub.fn()"]) by (vm_compute; reflexivity).
  eexists. eexists. split; [exact Hout|]. split; [left; reflexivity|].
  destruct (results_come_from_hits (sample_parse 0) sample_splitlines
              (fun s => s) (fun s => s) sample_download "pkg"
              [Item "ok" "r" "p" "h"] [] _ _ Hout (or_introl eq_refl))
    as [[]|[it [source [bs [b [[<-|[]] [_ [_ [_ Heq]]]]]]]]].
  reflexivity.
Defined.

(** * Properties of search and retrieval *)

Section ClientFacts.
Variable get_search : string -> Z -> Z -> outcome (response (option (list hit))).
Variable get_file : string -> outcome (response file_payload).
Variable raise_for_status : Z -> outcome unit.
Variable lower : string -> string.
Variable b64decode : json_value -> outcome string.
Variable decode_utf8_replace : string -> string.
Variable ast_parse : string -> outcome AST.
Variable splitlines : string -> list string.
Variable dedent strip : string -> string.

Abbreviation loop := (search_loop get_search raise_for_status lower).
Abbreviation search := (_iter_code_search_results get_search raise_for_status lower).
Abbreviation served := (serves get_search raise_for_status lower).

(** The inner loop keeps the Python hits in order until the limit is
    reached. *)
Lemma gather_spec (limit : Z) (items : list hit) :
  forall (gathered : Z) (found : list hit),
    gathered < limit ->
    gather limit items gathered found
    = let kept := take (Z.to_nat (limit - gathered)) (List.filter is_python items) in
      (gathered + Z.of_nat (List.length kept), (found ++ kept)%list).
Proof.
  induction items as [|it items IH]; intros gathered found Hlt; simpl.
  - rewrite take_nil. simpl. rewrite Z.add_0_r, app_nil_r. reflexivity.
  - change (PyText.endswith ".py" (hit_name it)) with (is_python it).
    destruct (is_python it).
    + assert (Hn : Z.to_nat (limit - gathered) = S (Z.to_nat (limit - (gathered + 1))))
        by lia.
      rewrite Hn. simpl.
      destruct (gathered + 1 >=? limit) eqn:Hge.
      * apply Z.geb_le in Hge.
        replace (Z.to_nat (limit - (gathered + 1))) with O by lia.
        rewrite take_0. simpl. reflexivity.
      * rewrite Z.geb_leb in Hge. apply Z.leb_gt in Hge.
        rewrite (IH _ _ Hge). simpl. rewrite <- app_assoc. simpl. f_equal. lia.
    + apply IH. exact Hlt.
Qed.

Lemma filter_python_all (l : list hit) :
  Forall (fun h => is_python h = true) (List.filter is_python l).
Proof.
  apply Forall_forall. intros h Hh. apply list_elem_of_In, filter_In in Hh. tauto.
Qed.

(** Whatever the server does, the hits found so far are Python files and
    no more than the limit. *)
Lemma search_loop_invariant (fuel : nat) (query : string) (per_page limit : Z) :
  forall (gathered page : Z) (found out : list hit),
    gathered = Z.of_nat (List.length found) ->
    gathered <= Z.max 0 limit ->
    Forall (fun h => is_python h = true) found ->
    loop fuel query per_page limit gathered page found = Ret out ->
    Z.of_nat (List.length out) <= Z.max 0 limit
    /\ Forall (fun h => is_python h = true) out.
Proof.
  induction fuel as [|fuel IH]; intros gathered page found out Hlen Hle Hpy Hout;
    simpl in Hout; destruct (Z.ltb_spec gathered limit) as [Hlt|Hge];
    try discriminate;
    try (injection Hout as <-; split; [lia | exact Hpy]).
  destruct (get_search query per_page page) as [r| |]; try discriminate.
  cbn [mbind outcome_bind] in Hout.
  destruct (rate_limited lower r); [discriminate|].
  destruct (raise_for_status (status_code r)) as [[]| |]; try discriminate.
  cbn [mbind outcome_bind] in Hout.
  destruct (json r) as [payload| |]; try discriminate.
  cbn [mbind outcome_bind] in Hout.
  destruct (default [] payload) as [|it items] eqn:Hitems.
  - injection Hout as <-. split; [lia | exact Hpy].
  - change (if PyText.endswith ".py" (hit_name it) then _ else _)
      with (gather limit (it :: items) gathered found) in Hout.
    rewrite (gather_spec limit (it :: items) gathered found Hlt) in Hout.
    cbv zeta in Hout.
    set (kept := take (Z.to_nat (limit - gathered)) (List.filter is_python (it :: items)))
      in *.
    assert (Hk : (List.length kept <= Z.to_nat (limit - gathered))%nat).
    { unfold kept. rewrite length_take. lia. }
    apply IH in Hout; [exact Hout| | |].
    + rewrite length_app. lia.
    + lia.
    + apply Forall_app. split; [exact Hpy|].
      unfold kept. apply Forall_take. apply filter_python_all.
Qed.

(** X14. Whatever the server answers, a search that returns gives at most
    [limit] hits, none for a limit of zero or less, and every hit is a file
    whose name ends in [.py]. *)
Theorem search_results_bounded (fuel : nat) (library : string) (per_page limit : Z)
    (out : list hit) :
  search fuel library per_page limit = Ret out ->
  Z.of_nat (List.length out) <= Z.max 0 limit
  /\ (forall h, In h out -> PyText.endswith ".py" (hit_name h) = true).
Proof.
  intros Hout. unfold _iter_code_search_results in Hout.
  apply search_loop_invariant in Hout; [|reflexivity|lia|constructor].
  destruct Hout as [Hlen Hpy]. split; [exact Hlen|].
  intros h Hh. rewrite Forall_forall in Hpy. apply Hpy, list_elem_of_In. exact Hh.
Qed.

Lemma loop_done (fuel : nat) (query : string) (per_page limit gathered page : Z)
    (found : list hit) :
  limit <= gathered ->
  loop fuel query per_page limit gathered page found = Ret found.
Proof.
  intros Hge. destruct fuel; simpl;
    destruct (Z.ltb_spec gathered limit); (lia || reflexivity).
Qed.

Lemma served_tail (query : string) (per_page page : Z) (p : list hit)
    (body : list (list hit)) :
  served query per_page page (p :: body) -> served query per_page (page + 1) body.
Proof.
  intros Hs k items Hk. destruct (Hs (S k) items Hk) as [r [payload H]].
  exists r, payload. replace (page + 1 + Z.of_nat k) with (page + Z.of_nat (S k)) by lia.
  exact H.
Qed.

Lemma served_prefix (query : string) (per_page page : Z) (l1 l2 : list (list hit)) :
  served query per_page page (l1 ++ l2) -> served query per_page page l1.
Proof.
  intros Hs k items Hk. apply Hs. apply lookup_app_l_Some. exact Hk.
Qed.

(** One request for a page that is served. *)
Lemma loop_step (fuel : nat) (query : string) (per_page limit gathered page : Z)
    (found p : list hit) (body : list (list hit)) :
  served query per_page page (p :: body) -> gathered < limit ->
  loop (S fuel) query per_page limit gathered page found
  = match p with
    | [] => Ret found
    | _ =>
        let kept := take (Z.to_nat (limit - gathered)) (List.filter is_python p) in
        loop fuel query per_page limit (gathered + Z.of_nat (List.length kept))
          (page + 1) (found ++ kept)%list
    end.
Proof.
  intros Hs Hlt. destruct (Hs O p eq_refl) as [r [payload [Hr [Hrl [Hst [Hj Hitems]]]]]].
  rewrite Z.add_0_r in Hr. simpl.
  destruct (Z.ltb_spec gathered limit) as [_|]; [|lia].
  rewrite Hr. cbn [mbind outcome_bind]. rewrite Hrl, Hst. cbn [mbind outcome_bind].
  rewrite Hj. cbn [mbind outcome_bind]. rewrite Hitems.
  destruct p as [|it items]; [reflexivity|].
  change (if PyText.endswith ".py" (hit_name it) then _ else _)
    with (gather limit (it :: items) gathered found).
  rewrite (gather_spec limit (it :: items) gathered found Hlt). reflexivity.
Qed.

(** The loop over pages that are served and hold hits: it stops inside them
    when the limit is reached, and goes on behind them otherwise. *)
Lemma loop_through (query : string) (per_page limit : Z) (body : list (list hit)) :
  forall (rest_fuel : nat) (gathered page : Z) (found : list hit),
    Forall (fun p => p <> []) body ->
    served query per_page page body ->
    gathered < limit ->
    loop (List.length body + rest_fuel) query per_page limit gathered page found
    = let all := List.filter is_python (concat body) in
      if limit - gathered <=? Z.of_nat (List.length all)
      then Ret (found ++ take (Z.to_nat (limit - gathered)) all)%list
      else loop rest_fuel query per_page limit (gathered + Z.of_nat (List.length all))
             (page + Z.of_nat (List.length body)) (found ++ all)%list.
Proof.
  induction body as [|p body IH]; intros rest_fuel gathered page found Hne Hs Hlt.
  - simpl. change (Z.of_nat 0) with 0.
    destruct (Z.leb_spec (limit - gathered) 0) as [|_]; [lia|].
    rewrite !Z.add_0_r, app_nil_r. reflexivity.
  - inversion Hne as [|? ? Hp Hbody]; subst.
    cbn [List.length Nat.add]. rewrite (loop_step _ _ _ _ _ _ _ p body Hs Hlt).
    destruct p as [|it items]; [congruence|].
    set (fp := List.filter is_python (it :: items)).
    cbv zeta. change (concat ((it :: items) :: body)) with ((it :: items) ++ concat body)%list.
    rewrite List.filter_app. fold fp. rewrite length_app.
    destruct (Z.le_gt_cases (limit - gathered) (Z.of_nat (List.length fp))) as [Hfull|Hpart].
    + rewrite loop_done by (rewrite length_take; lia).
      destruct (Z.leb_spec (limit - gathered)
                  (Z.of_nat (List.length fp + List.length (List.filter is_python (concat body)))))
        as [_|]; [|lia].
      rewrite take_app_le by lia. reflexivity.
    + rewrite (take_ge fp) by lia.
      rewrite (IH rest_fuel _ _ _ Hbody (served_tail _ _ _ _ _ Hs)) by lia.
      cbv zeta.
      replace (limit - (gathered + Z.of_nat (List.length fp)) <=?
               Z.of_nat (List.length (List.filter is_python (concat body))))
        with (limit - gathered <=?
              Z.of_nat (List.length fp + List.length (List.filter is_python (concat body))))
        by (apply eq_true_iff_eq; rewrite !Z.leb_le; lia).
      destruct (limit - gathered <=?
                Z.of_nat (List.length fp + List.length (List.filter is_python (concat body)))).
      * rewrite take_app_ge by lia. rewrite <- app_assoc. repeat f_equal. lia.
      * rewrite <- app_assoc. f_equal; lia.
Qed.

(** X15. When the server answers the pages 1, 2, ... with lists of hits and
    then with an empty page, a search with enough fuel for these requests
    returns the first [limit] hits whose name ends in [.py], in the order in
    which the server lists them. *)
Theorem search_returns_first_python_hits (fuel : nat) (library : string)
    (per_page limit : Z) (body : list (list hit)) :
  Forall (fun p => p <> []) body ->
  served (search_query library) per_page 1 (body ++ [[]]) ->
  (List.length body < fuel)%nat ->
  search fuel library per_page limit
  = Ret (take (Z.to_nat limit) (List.filter is_python (concat body))).
Proof.
  intros Hne Hs Hfuel. unfold _iter_code_search_results.
  destruct (Z.le_gt_cases limit 0) as [Hle|Hpos].
  - rewrite loop_done by lia. replace (Z.to_nat limit) with O by lia. reflexivity.
  - replace fuel with (List.length body + S (fuel - S (List.length body)))%nat by lia.
    rewrite (loop_through _ _ _ body _ _ _ _ Hne (served_prefix _ _ _ _ _ Hs)) by lia.
    cbv zeta. rewrite Z.sub_0_r.
    destruct (Z.leb_spec limit
                (Z.of_nat (List.length (List.filter is_python (concat body)))))
      as [_|Hfew]; [reflexivity|].
    assert (Hlast : served (search_query library) per_page
                      (1 + Z.of_nat (List.length body)) [[]]).
    { intros k items Hk. destruct k as [|k]; [|destruct k; discriminate].
      destruct (Hs (List.length body) items) as [r [payload H]].
      - rewrite lookup_app_r by lia. rewrite Nat.sub_diag. exact Hk.
      - exists r, payload. rewrite Z.add_0_r. exact H. }
    rewrite (loop_step _ _ _ _ _ _ _ [] [] Hlast) by lia.
    rewrite take_ge by lia. reflexivity.
Qed.

Lemma gather_none (limit : Z) (items : list hit) (gathered : Z) (found : list hit) :
  Forall (fun h => is_python h = false) items ->
  gather limit items gathered found = (gathered, found).
Proof.
  induction items as [|it items IH]; intros Hall; [reflexivity|].
  inversion Hall as [|? ? Hit Hrest]; subst. simpl.
  change (PyText.endswith ".py" (hit_name it)) with (is_python it).
  rewrite Hit. apply IH. exact Hrest.
Qed.

(** X16. The search loop relies on the server to end: when every page comes
    back with hits of which none is a Python file, a search for at least one
    file never leaves the loop, whatever fuel it is given. *)
Theorem search_never_ends_without_python_hits (library : string) (per_page limit : Z) :
  0 < limit ->
  (forall page, exists r payload,
      get_search (search_query library) per_page page = Ret r
      /\ rate_limited lower r = false
      /\ raise_for_status (status_code r) = Ret tt
      /\ json r = Ret payload
      /\ default [] payload <> []
      /\ Forall (fun h => is_python h = false) (default [] payload)) ->
  forall fuel, search fuel library per_page limit = OutOfFuel.
Proof.
  intros Hpos Hsrv fuel. unfold _iter_code_search_results. generalize 1.
  induction fuel as [|fuel IH]; intros page; simpl;
    destruct (Z.ltb_spec 0 limit) as [_|]; try lia; [reflexivity|].
  destruct (Hsrv page) as [r [payload [Hr [Hrl [Hst [Hj [Hne Hnone]]]]]]].
  rewrite Hr. cbn [mbind outcome_bind]. rewrite Hrl, Hst. cbn [mbind outcome_bind].
  rewrite Hj. cbn [mbind outcome_bind].
  destruct (default [] payload) as [|it items] eqn:Hitems; [congruence|].
  change (if PyText.endswith ".py" (hit_name it) then _ else _)
    with (gather limit (it :: items) 0 []).
  rewrite (gather_none _ _ _ _ Hnone). apply IH.
Qed.

(** X17. A rate limit throws away what was found: when the server answers
    some pages with hits, fewer Python files among them than the limit, and
    then with status 403 and a text that holds [rate limit] in lower case,
    the search raises [GitHubError] and returns none of the hits. *)
Theorem rate_limit_discards_hits (fuel : nat) (library : string)
    (per_page limit : Z) (body : list (list hit))
    (r : response (option (list hit))) :
  Forall (fun p => p <> []) body ->
  served (search_query library) per_page 1 body ->
  Z.of_nat (List.length (List.filter is_python (concat body))) < limit ->
  get_search (search_query library) per_page (1 + Z.of_nat (List.length body)) = Ret r ->
  rate_limited lower r = true ->
  (List.length body < fuel)%nat ->
  search fuel library per_page limit = Raise GitHubError.
Proof.
  intros Hne Hs Hfew Hr Hrl Hfuel. unfold _iter_code_search_results.
  replace fuel with (List.length body + S (fuel - S (List.length body)))%nat by lia.
  rewrite (loop_through _ _ _ body _ _ _ _ Hne Hs) by lia.
  cbv zeta. rewrite Z.sub_0_r.
  destruct (Z.leb_spec limit
              (Z.of_nat (List.length (List.filter is_python (concat body)))))
    as [|_]; [lia|].
  simpl. rewrite Hr. cbn [mbind outcome_bind]. rewrite Hrl.
  destruct (Z.ltb_spec
              (0 + Z.of_nat (List.length (List.filter is_python (concat body)))) limit)
    as [_|]; [reflexivity | lia].
Qed.

Abbreviation download := (_download_source get_file raise_for_status b64decode decode_utf8_replace).

(** X18. A file the analyzer cannot read is passed over in silence: when
    the payload of a hit has no content entry, or an encoding other than
    [base64], [_download_source] raises [GitHubError], and the loop of
    [analyze_library] goes on with the next hit as if the file were not
    there. *)
Theorem unreadable_payload_is_skipped (library : string) (it : item) (items : list item)
    (results : list CodeBlock) (r : response file_payload) (data : file_payload) :
  get_file (item_url it) = Ret r ->
  raise_for_status (status_code r) = Ret tt ->
  json r = Ret data ->
  content data = None \/ is_base64 (encoding data) = false ->
  download (item_url it) = Raise GitHubError
  /\ analyze_items ast_parse splitlines dedent strip download library (it :: items) results
     = analyze_items ast_parse splitlines dedent strip download library items results.
Proof.
  intros Hr Hst Hj Hbad.
  assert (Hdl : download (item_url it) = Raise GitHubError).
  { unfold _download_source. rewrite Hr. cbn [mbind outcome_bind].
    rewrite Hst. cbn [mbind outcome_bind]. rewrite Hj. cbn [mbind outcome_bind].
    destruct Hbad as [Hc|He]; [rewrite Hc; reflexivity|].
    destruct (content data); [rewrite He|]; reflexivity. }
  split; [exact Hdl|]. simpl. rewrite Hdl. reflexivity.
Qed.

Abbreviation run_analysis :=
  (_run_analysis get_search get_file raise_for_status lower b64decode decode_utf8_replace
     ast_parse splitlines dedent strip).

(** X19. The web front end looks at no fewer than one and no more than
    twenty files: the number of files asked for is brought into the range 1
    to 20 and left alone inside it, and what [_run_analysis] returns is the
    result of the analysis loop on at most twenty hits, all of them Python
    files. *)
Theorem run_analysis_is_bounded (fuel : nat) (library : string) (max_files : Z) :
  1 <= bounded_max max_files <= 20
  /\ (1 <= max_files <= 20 -> bounded_max max_files = max_files)
  /\ forall out,
       run_analysis fuel library max_files = Ret out ->
       exists hits,
         search fuel library 10 (bounded_max max_files) = Ret hits
         /\ (List.length hits <= 20)%nat
         /\ (forall h, In h hits -> PyText.endswith ".py" (hit_name h) = true)
         /\ analyze_items ast_parse splitlines dedent strip download library
              (map hit_item hits) [] = Ret out.
Proof.
  unfold bounded_max. split; [lia|]. split; [lia|].
  intros out Hout. unfold _run_analysis, analyze_library in Hout.
  unfold bounded_max in Hout.
  destruct (search fuel library 10 (Z.max 1 (Z.min max_files 20))) as [hits| |] eqn:Hs;
    try discriminate.
  cbn [mbind outcome_bind] in Hout. exists hits. split; [reflexivity|].
  pose proof Hs as Hinv. unfold _iter_code_search_results in Hinv.
  apply search_loop_invariant in Hinv; [|reflexivity|lia|constructor].
  destruct Hinv as [Hlen Hpy]. split; [lia|]. split; [|exact Hout].
  intros h Hh. rewrite Forall_forall in Hpy. apply Hpy, list_elem_of_In. exact Hh.
Qed.
End ClientFacts.

Lemma sample_pages_served :
  serves (list_server sample_pages) sample_raise_for_status (fun s => s)
    (search_query "pkg") 10 1 sample_pages.
Proof.
  intros k items Hk. destruct k as [|[|[|k]]]; try discriminate;
    injection Hk as <-; do 2 eexists; repeat split; reflexivity.
Qed.

Lemma search_results_bounded_witness :
  exists out,
    _iter_code_search_results (list_server sample_pages) sample_raise_for_status
      (fun s => s) 3 "pkg" 10 1 = Ret out
    /\ Z.of_nat (List.length out) <= Z.max 0 1.
Proof.
  eexists. split; [vm_compute; reflexivity|].
  apply (search_results_bounded (list_server sample_pages) sample_raise_for_status
           (fun s => s) 3 "pkg" 10 1).
  vm_compute. reflexivity.
Defined.

Lemma search_returns_first_python_hits_witness :
  _iter_code_search_results (list_server sample_pages) sample_raise_for_status
    (fun s => s) 3 "pkg" 10 5
  = Ret [Hit "a.py" (Item "ok" "r1" "a.py" "h1"); Hit "b.py" (Item "ok" "r2" "b.py" "h3")].
Proof.
  apply (search_returns_first_python_hits (list_server sample_pages)
           sample_raise_for_status (fun s => s) 3 "pkg" 10 5
           [ [Hit "a.py" (Item "ok" "r1" "a.py" "h1");
              Hit "notes.txt" (Item "ok" "r1" "notes.txt" "h2")];
             [Hit "b.py" (Item "ok" "r2" "b.py" "h3")] ]).
  - repeat constructor; discriminate.
  - exact sample_pages_served.
  - simpl. lia.
Defined.

Lemma search_never_ends_without_python_hits_witness :
  _iter_code_search_results text_server sample_raise_for_status (fun s => s)
    1000 "pkg" 10 1 = OutOfFuel.
Proof.
  apply (search_never_ends_without_python_hits text_server sample_raise_for_status
           (fun s => s) "pkg" 10 1).
  - lia.
  - intros page. do 2 eexists. repeat split; try reflexivity.
    + discriminate.
    + repeat constructor.
Defined.

Lemma rate_limit_discards_hits_witness :
  _iter_code_search_results limited_server sample_raise_for_status (fun s => s)
    2 "pkg" 10 5 = Raise GitHubError.
Proof.
  apply (rate_limit_discards_hits limited_server sample_raise_for_status (fun s => s)
           2 "pkg" 10 5 [[Hit "a.py" (Item "ok" "r1" "a.py" "h1")]]
           (Response 403 "api rate limit exceeded" (Ret None))).
  - repeat constructor; discriminate.
  - intros k items Hk. destruct k as [|k]; [|discriminate].
    injection Hk as <-. do 2 eexists. repeat split; reflexivity.
  - simpl. lia.
  - reflexivity.
  - reflexivity.
  - simpl. lia.
Defined.

Lemma unreadable_payload_is_skipped_witness :
  _download_source sample_get_file sample_raise_for_status sample_b64decode (fun s => s)
    "hex" = Raise GitHubError.
Proof.
  apply (unreadable_payload_is_skipped sample_get_file sample_raise_for_status
           sample_b64decode (fun s => s) (sample_parse 0) sample_splitlines
           (fun s => s) (fun s => s) "pkg" (Item "hex" "r" "p" "h") [] []
           (Response 200 "" (Ret (FilePayload (Some (JString "696d706f7274")) (JString "hex"))))
           (FilePayload (Some (JString "696d706f7274")) (JString "hex"))).
  - reflexivity.
  - reflexivity.
  - reflexivity.
  - right. reflexivity.
Defined.

Lemma run_analysis_is_bounded_witness :
  exists out hits,
    _run_analysis (list_server sample_pages) sample_get_file sample_raise_for_status
      (fun s => s) sample_b64decode (fun s => s) (sample_parse 0) sample_splitlines
      (fun s => s) (fun s => s) 5 "pkg" 100 = Ret out
    /\ _iter_code_search_results (list_server sample_pages) sample_raise_for_status
         (fun s => s) 5 "pkg" 10 (bounded_max 100) = Ret hits
    /\ (List.length hits <= 20)%nat.
Proof.
  assert (Hout : exists out,
            _run_analysis (list_server sample_pages) sample_get_file
              sample_raise_for_status (fun s => s) sample_b64decode (fun s => s)
              (sample_parse 0) sample_splitlines (fun s => s) (fun s => s) 5 "pkg" 100
            = Ret out) by (eexists; vm_compute; reflexivity).
  destruct Hout as [out Hout]. exists out.
  destruct (proj2 (proj2 (run_analysis_is_bounded (list_server sample_pages)
              sample_get_file sample_raise_for_status (fun s => s) sample_b64decode
              (fun s => s) (sample_parse 0) sample_splitlines (fun s => s) (fun s => s)
              5 "pkg" 100)) out Hout) as [hits [Hs [Hlen _]]].
  exists hits. repeat split; assumption.
Defined.
